(** * sequex: script/generate_symbol_table.py

    A shallow embedding of the exchange-info normaliser and the properties
    its specification states about it.

    The script fetches the instrument catalogue of one exchange over HTTP,
    extracts six fields per instrument and writes them to a CSV file.  The
    embedding keeps the program's shape:

    - payloads are JSON values as Python's [json] module builds them (dicts
      are finite maps with string keys);
    - the dynamic operations the script applies to them ([.get], subscript,
      iteration, truthiness, item assignment) are functions that raise the
      exception Python raises;
    - the pure parsers live in the [result] monad, the parts that talk to the
      network or the filesystem in a state-and-exception monad over a [world];
    - the HTTP collaborator is a script of responses that is consumed one
      request at a time, with a log of the requests that were issued;
    - the filesystem is a set of directories and a finite map of files.

    Progress messages printed on standard output are not part of the model;
    JSON strings are byte strings. *)

From Stdlib Require Import ZArith String Ascii List Bool Lia.
From Stdlib Require Import Floats.SpecFloat.
From stdpp Require Import gmap strings list fin_maps.

Set Warnings "-register-all".
Open Scope string_scope.
Open Scope Z_scope.

(** ** JSON values *)

Inductive json :=
| JNull
| JBool (b : bool)
| JInt (z : Z)
| JFloat (f : spec_float)
| JStr (s : string)
| JList (l : list json)
| JDict (d : gmap string json).

(** ** Exceptions and the [result] monad *)

Inductive request_error :=
| ConnectionError
| HTTPError (status_code : Z).

Inductive os_error :=
| FileExistsError
| FileNotFoundError
| IsADirectoryError.

Inductive exn :=
| RequestException (r : request_error)
| ValueError (msg : string)
| KeyError (key : string)
| TypeError
| AttributeError
| OSError (o : os_error).

(** [except requests.exceptions.RequestException] *)
Definition is_request_exception (e : exn) : bool :=
  match e with
  | RequestException _ => true
  | _ => false
  end.

Inductive result (A : Type) :=
| Ok (a : A)
| Raise (e : exn).
Arguments Ok {A} a.
Arguments Raise {A} e.

Definition bind_result {A B} (r : result A) (k : A -> result B) : result B :=
  match r with
  | Ok a => k a
  | Raise e => Raise e
  end.

Declare Scope result_scope.
Delimit Scope result_scope with R.
Notation "'let*' x := c 'in' k" := (bind_result c (fun x => k))
  (at level 10, x pattern, c at level 100, k at level 200) : result_scope.

(** ** The Python operations the script applies to JSON values *)

Module Py.

(** [bool(v)] *)
Definition truthy (v : json) : bool :=
  match v with
  | JNull => false
  | JBool b => b
  | JInt z => negb (z =? 0)
  | JFloat (S754_zero _) => false
  | JFloat _ => true
  | JStr s => negb (String.eqb s "")
  | JList l => negb (Nat.eqb (length l) 0)
  | JDict d => negb (Nat.eqb (size d) 0)
  end.

(** [v == 'literal'] for a string literal *)
Definition eq_str (v : json) (lit : string) : bool :=
  match v with
  | JStr s => String.eqb s lit
  | _ => false
  end.

(** [v.get(key, dflt)]: only dicts have the method *)
Definition get (v : json) (key : string) (dflt : json) : result json :=
  match v with
  | JDict d => Ok (default dflt (d !! key))
  | _ => Raise AttributeError
  end.

(** [v[key]] with a string key *)
Definition getitem (v : json) (key : string) : result json :=
  match v with
  | JDict d =>
      match d !! key with
      | Some x => Ok x
      | None => Raise (KeyError key)
      end
  | _ => Raise TypeError
  end.

(** [v[key] = x] with a string key; the dict is updated in place *)
Definition setitem (v : json) (key : string) (x : json) : result json :=
  match v with
  | JDict d => Ok (JDict (<[key := x]> d))
  | _ => Raise TypeError
  end.

(** The items a [for] loop over [v] visits: the elements of a list, the
    keys of a dict, the characters of a string. *)
Definition iter (v : json) : result (list json) :=
  match v with
  | JList l => Ok l
  | JDict d => Ok (map (fun kv => JStr (fst kv)) (map_to_list d))
  | JStr s => Ok (map (fun c => JStr (String c EmptyString)) (list_ascii_of_string s))
  | _ => Raise TypeError
  end.

End Py.

(** ** Normalized instrument records

    The dict literal that the parsers append has exactly these six keys. *)

Record row := {
  symbol : json;
  base : json;
  quote : json;
  instrument : json;
  priceTick : json;
  szTick : json
}.

(** The [for symbol_info in ...] loop shared by the three parsers: the body
    either skips the instrument ([None]), appends one record ([Some]) or
    raises. [symbols] is the accumulator of the source. *)
Fixpoint for_symbols (body : json -> result (option row)) (items : list json)
    (symbols : list row) : result (list row) :=
  match items with
  | [] => Ok symbols
  | symbol_info :: rest =>
      (let* r := body symbol_info in
       for_symbols body rest
         (match r with Some rec => (symbols ++ [rec])%list | None => symbols end))%R
  end.

(** ** Binance (spot and perpetual) *)

(** The [for filter_info in ...] loop, lines 55-59 and 98-102. *)
Fixpoint binance_filters (filters : list json) (price_filter qty_filter : json)
    : result (json * json) :=
  match filters with
  | [] => Ok (price_filter, qty_filter)
  | filter_info :: rest =>
      (let* ft := Py.getitem filter_info "filterType" in
       if Py.eq_str ft "PRICE_FILTER" then binance_filters rest filter_info qty_filter
       else if Py.eq_str ft "LOT_SIZE" then binance_filters rest price_filter filter_info
       else binance_filters rest price_filter qty_filter)%R
  end.

(** The body of the instrument loop; [kind] is the literal written to the
    [instrument] key, the only difference between the two Binance parsers. *)
Definition binance_symbol (kind : string) (symbol_info : json) : result (option row) :=
  (let* status := Py.get symbol_info "status" JNull in
   if negb (Py.eq_str status "TRADING") then Ok None else
   let* filters := Py.get symbol_info "filters" (JList []) in
   let* filter_items := Py.iter filters in
   let* pq := binance_filters filter_items JNull JNull in
   let price_filter := fst pq in
   let qty_filter := snd pq in
   if Py.truthy price_filter && Py.truthy qty_filter then
     let* sym := Py.getitem symbol_info "symbol" in
     let* bas := Py.getitem symbol_info "baseAsset" in
     let* quo := Py.getitem symbol_info "quoteAsset" in
     let* tick := Py.get price_filter "tickSize" (JStr "") in
     let* step := Py.get qty_filter "stepSize" (JStr "") in
     Ok (Some {| symbol := sym; base := bas; quote := quo;
                 instrument := JStr kind; priceTick := tick; szTick := step |})
   else Ok None)%R.

Definition binance_parse_symbols (kind : string) (exchange_info : json) : result (list row) :=
  (let* lst := Py.get exchange_info "symbols" (JList []) in
   let* items := Py.iter lst in
   for_symbols (binance_symbol kind) items [])%R.

(** ** Bybit *)

Definition bybit_symbol (symbol_info : json) : result (option row) :=
  (let* status := Py.get symbol_info "status" JNull in
   if negb (Py.eq_str status "Trading") then Ok None else
   let* price_filter := Py.get symbol_info "priceFilter" (JDict ∅) in
   let* lot_size_filter := Py.get symbol_info "lotSizeFilter" (JDict ∅) in
   let* category := Py.get symbol_info "category" (JStr "spot") in
   let instr :=
     if Py.eq_str category "spot" then JStr "spot"
     else if Py.eq_str category "linear" then JStr "perp"
     else if Py.eq_str category "inverse" then JStr "inverse"
     else category in
   let* sz_tick :=
     (if Py.eq_str category "linear" || Py.eq_str category "inverse"
      then Py.get lot_size_filter "qtyStep" (JStr "")
      else Py.get lot_size_filter "basePrecision" (JStr "")) in
   let* sym := Py.getitem symbol_info "symbol" in
   let* bas := Py.getitem symbol_info "baseCoin" in
   let* quo := Py.getitem symbol_info "quoteCoin" in
   let* tick := Py.get price_filter "tickSize" (JStr "") in
   Ok (Some {| symbol := sym; base := bas; quote := quo;
               instrument := instr; priceTick := tick; szTick := sz_tick |}))%R.

Definition bybit_parse_symbols (exchange_info : json) : result (list row) :=
  (let* res := Py.get exchange_info "result" (JDict ∅) in
   let* lst := Py.get res "list" (JList []) in
   let* items := Py.iter lst in
   for_symbols bybit_symbol items [])%R.

(** ** The world: scripted HTTP, filesystem, standard error *)

Record request := {
  url : string;
  params : list (string * json)
}.

(** What the network answers to one request: no answer at all (a transport
    failure) or an HTTP response with a JSON body. *)
Inductive response :=
| NoConnection
| Response (status_code : Z) (body : json).

Record filesystem := {
  dirs : gset string;
  files : gmap string string
}.

Record world := {
  net_script : list response;
  net_log : list request;
  fs : filesystem;
  stderr : list (string * exn)
}.

Definition M (A : Type) : Type := world -> result A * world.

Definition ret {A} (a : A) : M A := fun w => (Ok a, w).

Definition bind {A B} (m : M A) (k : A -> M B) : M B :=
  fun w =>
    match m w with
    | (Ok a, w') => k a w'
    | (Raise e, w') => (Raise e, w')
    end.

Definition lift {A} (r : result A) : M A := fun w => (r, w).

Declare Scope io_scope.
Delimit Scope io_scope with io.
Notation "'let*' x := c 'in' k" := (bind c (fun x => k))
  (at level 10, x pattern, c at level 100, k at level 200) : io_scope.

(** [requests.get(url, params=params)] followed by [raise_for_status()] and
    [.json()]: the next scripted response is consumed and the request is
    logged. An exhausted script answers like an unreachable host. *)
Definition requests_get (u : string) (ps : list (string * json)) : M (Z * json) :=
  fun w =>
    let w' := {| net_script := tail (net_script w);
                 net_log := (net_log w ++ [{| url := u; params := ps |}])%list;
                 fs := fs w; stderr := stderr w |} in
    match net_script w with
    | [] => (Raise (RequestException ConnectionError), w')
    | NoConnection :: _ => (Raise (RequestException ConnectionError), w')
    | Response st b :: _ => (Ok (st, b), w')
    end.

Definition raise_for_status (resp : Z * json) : M unit :=
  let st := fst resp in
  if (400 <=? st) && (st <? 600)
  then lift (Raise (RequestException (HTTPError st)))
  else ret tt.

(** Lines 37-42 and 80-85. *)
Definition binance_get_exchange_info (u : string) : M json :=
  (let* resp := requests_get u [] in
   let* _ := raise_for_status resp in
   ret (snd resp))%io.

(** Lines 151-152: tag every instrument of the page with its category. *)
Fixpoint tag_symbols (category : string) (page_symbols : list json) : result (list json) :=
  match page_symbols with
  | [] => Ok []
  | sym :: rest =>
      (let* tagged := Py.setitem sym "category" (JStr category) in
       let* rest' := tag_symbols category rest in
       Ok (tagged :: rest'))%R
  end.

Inductive page_step :=
| Break (all_symbols : list json)
| Continue (cursor : json) (all_symbols : list json).

(** One iteration of the [while True] loop, lines 137-162. *)
Definition bybit_page (base : string) (category : string) (cursor : json)
    (all_symbols : list json) : M page_step :=
  (let ps := ([("category", JStr category); ("limit", JInt 1000)]
              ++ (if Py.truthy cursor then [("cursor", cursor)] else []))%list in
   let* resp := requests_get (base ++ "/v5/market/instruments-info") ps in
   let* _ := raise_for_status resp in
   let data := snd resp in
   let* res := lift (Py.get data "result" (JDict ∅)) in
   let* page_symbols := lift (Py.get res "list" (JList [])) in
   let* items := lift (Py.iter page_symbols) in
   let* tagged := lift (tag_symbols category items) in
   let all_symbols := (all_symbols ++ tagged)%list in
   let* res' := lift (Py.get data "result" (JDict ∅)) in
   let* next_cursor := lift (Py.get res' "nextPageCursor" JNull) in
   if negb (Py.truthy next_cursor) || negb (Py.truthy page_symbols)
   then ret (Break all_symbols)
   else ret (Continue next_cursor all_symbols))%io.

(** The [while True] loop. Every iteration consumes one scripted response,
    so the loop is run with as much fuel as the script is long; lemma
    [bybit_paginate_fuel] shows that the fuel never runs out first. *)
Fixpoint bybit_paginate (fuel : nat) (base category : string) (cursor : json)
    (all_symbols : list json) : M (list json) :=
  (let* step := bybit_page base category cursor all_symbols in
   match step with
   | Break acc => ret acc
   | Continue next_cursor acc =>
       match fuel with
       | O => ret acc
       | S fuel' => bybit_paginate fuel' base category next_cursor acc
       end
   end)%io.

(** The [for category in categories] loop, lines 132-163. *)
Fixpoint bybit_categories (base : string) (categories : list string)
    (all_symbols : list json) : M (list json) :=
  match categories with
  | [] => ret all_symbols
  | category :: rest =>
      (let* acc := (fun w => bybit_paginate (length (net_script w)) base category
                                JNull all_symbols w) in
       bybit_categories base rest acc)%io
  end.

Definition bybit_get_exchange_info (base : string) : M json :=
  (let* all_symbols := bybit_categories base ["spot"; "linear"; "inverse"] [] in
   ret (JDict {[ "result" := JDict {[ "list" := JList all_symbols ]} ]}))%io.

(** ** The fetcher interface and its three implementations *)

Record ExchangeInfoFetcher := {
  base_url : string;
  get_exchange_info : M json;
  parse_symbols : json -> result (list row)
}.

Definition BinanceSpotFetcher : ExchangeInfoFetcher := {|
  base_url := "https://api.binance.com/api";
  get_exchange_info :=
    binance_get_exchange_info ("https://api.binance.com/api" ++ "/v3/exchangeInfo");
  parse_symbols := binance_parse_symbols "spot"
|}.

Definition BinancePerpFetcher : ExchangeInfoFetcher := {|
  base_url := "https://fapi.binance.com";
  get_exchange_info :=
    binance_get_exchange_info ("https://fapi.binance.com" ++ "/fapi/v1/exchangeInfo");
  parse_symbols := binance_parse_symbols "perp"
|}.

Definition BybitFetcher : ExchangeInfoFetcher := {|
  base_url := "https://api.bybit.com";
  get_exchange_info := bybit_get_exchange_info "https://api.bybit.com";
  parse_symbols := bybit_parse_symbols
|}.

(** The [fetchers] dict of [get_fetcher], in insertion order. *)
Definition fetchers : list (string * ExchangeInfoFetcher) :=
  [("binance", BinanceSpotFetcher);
   ("binanceperp", BinancePerpFetcher);
   ("bybit", BybitFetcher)].

Fixpoint assoc {A} (key : string) (l : list (string * A)) : option A :=
  match l with
  | [] => None
  | (k, v) :: rest => if String.eqb key k then Some v else assoc key rest
  end.

(** [str(list_of_names)] for names without quotes or escapes. *)
Definition repr_names (names : list string) : string :=
  "[" ++ String.concat ", " (map (fun n => "'" ++ n ++ "'") names) ++ "]".

Definition get_fetcher (market : string) : result ExchangeInfoFetcher :=
  match assoc market fetchers with
  | None =>
      Raise (ValueError ("Unsupported market: " ++ market ++ ". Supported markets: "
                         ++ repr_names (map fst fetchers)))
  | Some fetcher => Ok fetcher
  end.

(** ** Paths and the filesystem

    Paths are compared as written: [.] and [..] components and repeated
    slashes are not resolved, and access rights are not modelled. *)

Definition is_slash (c : ascii) : bool := Ascii.eqb c "/"%char.

Fixpoint lstrip (p : ascii -> bool) (l : list ascii) : list ascii :=
  match l with
  | [] => []
  | c :: rest => if p c then lstrip p rest else l
  end.

(** [os.path.dirname]: everything up to the last slash, without trailing
    slashes unless the head consists of slashes only. The head is computed
    on the reversed path. *)
Definition dirname (p : string) : string :=
  let head_rev := lstrip (fun c => negb (is_slash c)) (rev (list_ascii_of_string p)) in
  if forallb is_slash head_rev
  then string_of_list_ascii (rev head_rev)
  else string_of_list_ascii (rev (lstrip is_slash head_rev)).

(** The proper ancestors of a directory path: the prefixes that end where a
    slash follows a component. *)
Fixpoint ancestors_from (seen_rev rest : list ascii) : list string :=
  match rest with
  | [] => []
  | c :: rest' =>
      let here :=
        match seen_rev with
        | prev :: _ =>
            if is_slash c && negb (is_slash prev)
            then [string_of_list_ascii (rev seen_rev)] else []
        | [] => []
        end in
      (here ++ ancestors_from (c :: seen_rev) rest')%list
  end.

Definition ancestors (d : string) : list string :=
  ancestors_from [] (list_ascii_of_string d).

Definition with_fs (f : filesystem) (w : world) : world :=
  {| net_script := net_script w; net_log := net_log w; fs := f; stderr := stderr w |}.

(** [mkdir] that tolerates an existing directory but not a file in the way. *)
Definition mkdir_exist_ok (d : string) : M unit :=
  fun w =>
    match files (fs w) !! d with
    | Some _ => (Raise (OSError FileExistsError), w)
    | None => (Ok tt, with_fs {| dirs := dirs (fs w) ∪ {[ d ]}; files := files (fs w) |} w)
    end.

Fixpoint mkdir_all (ds : list string) : M unit :=
  match ds with
  | [] => ret tt
  | d :: rest => (let* _ := mkdir_exist_ok d in mkdir_all rest)%io
  end.

(** [os.makedirs(d, exist_ok=True)]: the ancestors first, then [d]. *)
Definition makedirs (d : string) : M unit :=
  mkdir_all (ancestors d ++ [d])%list.

Definition ends_with_slash (p : string) : bool :=
  match rev (list_ascii_of_string p) with
  | c :: _ => is_slash c
  | [] => false
  end.

(** [open(path, 'w')]: the path must name a file and its directory must
    exist (the empty directory name is the working directory); the file is
    created or truncated. *)
Definition open_w (path : string) : M unit :=
  fun w =>
    if String.eqb path "" then (Raise (OSError FileNotFoundError), w)
    else if ends_with_slash path || bool_decide (path ∈ dirs (fs w))
    then (Raise (OSError IsADirectoryError), w)
    else if negb (String.eqb (dirname path) "")
            && negb (bool_decide (dirname path ∈ dirs (fs w)))
    then (Raise (OSError FileNotFoundError), w)
    else (Ok tt, with_fs {| dirs := dirs (fs w);
                            files := <[path := ""]> (files (fs w)) |} w).

(** Writing to the open file appends to its contents. *)
Definition file_write (path : string) (text : string) : M unit :=
  fun w =>
    (Ok tt, with_fs {| dirs := dirs (fs w);
                       files := <[path := default "" (files (fs w) !! path) ++ text]>
                                  (files (fs w)) |} w).

(** ** The record writer *)

Definition dquote : ascii := "034"%char.
Definition CR : ascii := "013"%char.
Definition LF : ascii := "010"%char.

(** The line terminator of the dialect. *)
Definition CRLF : string := String CR (String LF EmptyString).

(** The [excel] dialect with [QUOTE_MINIMAL]: a field is quoted when it
    contains the delimiter, the quote character or a line break, and quote
    characters inside it are doubled. *)
Definition csv_special (c : ascii) : bool :=
  Ascii.eqb c ","%char || Ascii.eqb c dquote || Ascii.eqb c CR || Ascii.eqb c LF.

Fixpoint double_quotes (s : string) : string :=
  match s with
  | EmptyString => EmptyString
  | String c rest =>
      if Ascii.eqb c dquote then String c (String c (double_quotes rest))
      else String c (double_quotes rest)
  end.

Definition csv_field (s : string) : string :=
  if existsb csv_special (list_ascii_of_string s)
  then String dquote (double_quotes s ++ String dquote EmptyString)
  else s.

Definition fieldnames : list string :=
  ["symbol"; "base"; "quote"; "instrument"; "priceTick"; "szTick"].

(** [[rowdict.get(key) for key in fieldnames]] *)
Definition row_values (r : row) : list json :=
  [symbol r; base r; quote r; instrument r; priceTick r; szTick r].

Section Writer.

(** [str(v)] for the values that are neither strings nor [None]; how Python
    prints numbers and containers is left open. *)
Variable py_str : json -> string.

Definition csv_text (v : json) : string :=
  match v with
  | JNull => ""
  | JStr s => s
  | _ => py_str v
  end.

Definition csv_line (cells : list json) : string :=
  String.concat "," (map (fun v => csv_field (csv_text v)) cells) ++ CRLF.

Definition csv_rows (symbols : list row) : string :=
  String.concat "" (map (fun r => csv_line (row_values r)) symbols).

(** Lines 226-240. *)
Definition write_csv (symbols : list row) (output_path : string) : M unit :=
  (let output_dir := dirname output_path in
   let* _ := (if negb (String.eqb output_dir "") then makedirs output_dir else ret tt) in
   let* _ := open_w output_path in
   let* _ := file_write output_path (csv_line (map JStr fieldnames)) in
   let* _ := file_write output_path (csv_rows symbols) in
   ret tt)%io.

(** ** The orchestrator *)

Definition choices : list string := ["binance"; "binanceperp"; "bybit"].

(** The body of the [try] block, lines 274-286. *)
Definition pipeline (market dst : string) : M unit :=
  (let* fetcher := lift (get_fetcher market) in
   let* exchange_info := get_exchange_info fetcher in
   let* symbols := lift (parse_symbols fetcher exchange_info) in
   write_csv symbols dst)%io.

(** Lines 270-271: the destination when [--dst] is not given. *)
Definition default_dst (market : string) (dst : option string) : string :=
  match dst with
  | None => "artifact/" ++ market ++ ".csv"
  | Some d => d
  end.

(** [print(f"{prefix}{e}", file=sys.stderr)] *)
Definition eprint (prefix : string) (e : exn) (w : world) : world :=
  {| net_script := net_script w; net_log := net_log w; fs := fs w;
     stderr := (stderr w ++ [(prefix, e)])%list |}.

(** [main] on the command line [market [--dst dst]]; the result is the exit
    status of the process. A market outside [choices] is rejected by the
    argument parser, which exits with status 2. *)
Definition main (market : string) (dst : option string) (w : world) : Z * world :=
  if negb (existsb (String.eqb market) choices) then (2, w) else
  match pipeline market (default_dst market dst) w with
  | (Ok _, w') => (0, w')
  | (Raise e, w') =>
      if is_request_exception e
      then (1, eprint "Error fetching data: " e w')
      else (1, eprint "Error: " e w')
  end.

End Writer.

(** ** Vocabulary of the properties *)

(** The value stored under a key of an instrument or filter, if any. *)
Definition lookup_key (v : json) (key : string) : option json :=
  match v with
  | JDict d => d !! key
  | _ => None
  end.

(** The instruments the parsers iterate over. *)
Definition binance_instruments (exchange_info : json) : list json :=
  match (let* lst := Py.get exchange_info "symbols" (JList []) in Py.iter lst)%R with
  | Ok items => items
  | Raise _ => []
  end.

Definition bybit_instruments (exchange_info : json) : list json :=
  match (let* res := Py.get exchange_info "result" (JDict ∅) in
         let* lst := Py.get res "list" (JList []) in
         Py.iter lst)%R with
  | Ok items => items
  | Raise _ => []
  end.

(** The entries of an instrument's filter list. *)
Definition filter_entries (symbol_info : json) : list json :=
  match (let* filters := Py.get symbol_info "filters" (JList []) in Py.iter filters)%R with
  | Ok items => items
  | Raise _ => []
  end.

(** A filter entry carries the given type tag. *)
Definition has_filter_type (tag : string) (filter_info : json) : bool :=
  match lookup_key filter_info "filterType" with
  | Some v => Py.eq_str v tag
  | None => false
  end.

(** A field of a filter, or the empty string when the filter lacks it. *)
Definition field_or_empty (filter_info : json) (key : string) : json :=
  default (JStr "") (lookup_key filter_info key).

(** A sub-object of a Bybit instrument, or the empty dict when absent. *)
Definition bybit_filter (symbol_info : json) (key : string) : json :=
  default (JDict ∅) (lookup_key symbol_info key).

Definition bybit_category (symbol_info : json) : json :=
  default (JStr "spot") (lookup_key symbol_info "category").



(** A failure of the pipeline is a network failure when the exception is a
    [RequestException]. The sentence of the specification on exit statuses,
    as it is worded: a run that fails on the network and a run that fails
    otherwise never end with the same status. *)
Definition exit_status_tells_network_failures (py_str : json -> string) : Prop :=
  ∀ m1 d1 w1 e1 w1' m2 d2 w2 e2 w2',
    pipeline py_str m1 (default_dst m1 d1) w1 = (Raise e1, w1') →
    is_request_exception e1 = true →
    pipeline py_str m2 (default_dst m2 d2) w2 = (Raise e2, w2') →
    is_request_exception e2 = false →
    fst (main py_str m1 d1 w1) ≠ fst (main py_str m2 d2 w2).


(** *** Scripted Bybit pages *)

Record page := {
  page_list : list (gmap string json);
  page_cursor : json
}.

(** A scripted response carries a page: a success status and a body whose
    [result] holds the instruments under [list] and the token for the next
    page, if any, under [nextPageCursor]. *)
Definition is_page (r : response) (p : page) : Prop :=
  ∃ st d res,
    r = Response st (JDict d)
    ∧ (400 <=? st) && (st <? 600) = false
    ∧ d !! "result" = Some (JDict res)
    ∧ res !! "list" = Some (JList (map JDict (page_list p)))
    ∧ default JNull (res !! "nextPageCursor") = page_cursor p.

(** Pagination goes on after a page that has a next-cursor token and at
    least one instrument. *)
Definition page_continues (p : page) : bool :=
  Py.truthy (page_cursor p) && negb (Nat.eqb (length (page_list p)) 0).

(** The pages of one category: all but the last ask for more. *)
Definition category_run (ps : list page) : Prop :=
  ∃ init final,
    ps = (init ++ [final])%list
    ∧ Forall (fun p => page_continues p = true) init
    ∧ page_continues final = false.

(** The instruments of a run of pages, in order, tagged with the category. *)
Definition tagged (category : string) (ps : list page) : list json :=
  flat_map (fun p => map (fun d => JDict (<["category" := JStr category]> d)) (page_list p)) ps.

(** The request for one page of a category. *)
Definition page_request (base category : string) (cursor : json) : request :=
  {| url := base ++ "/v5/market/instruments-info";
     params := ([("category", JStr category); ("limit", JInt 1000)]
                ++ (if Py.truthy cursor then [("cursor", cursor)] else []))%list |}.

(** The requests that fetch a run of pages: the first without a cursor
    (given as [JNull]), each later one with the token of the page before. *)
Fixpoint page_requests (base category : string) (cursor : json) (ps : list page)
    : list request :=
  match ps with
  | [] => []
  | p :: rest =>
      page_request base category cursor :: page_requests base category (page_cursor p) rest
  end.

(** The world after some requests have been answered from the script. *)
Definition answered (w : world) (rest : list response) (reqs : list request) : world :=
  {| net_script := rest; net_log := (net_log w ++ reqs)%list;
     fs := fs w; stderr := stderr w |}.

(** Some stage before the write step raises: fetcher selection, fetching
    or parsing. *)
Definition fails_before_write (market : string) (w : world) : Prop :=
  (∃ e, get_fetcher market = Raise e)
  ∨ (∃ f e w1, get_fetcher market = Ok f ∧ get_exchange_info f w = (Raise e, w1))
  ∨ (∃ f info w1 e, get_fetcher market = Ok f
                    ∧ get_exchange_info f w = (Ok info, w1)
                    ∧ parse_symbols f info = Raise e).

(** The text of the file the writer produces. *)
Definition csv_file (py_str : json -> string) (symbols : list row) : string :=
  csv_line py_str (map JStr fieldnames) ++ csv_rows py_str symbols.

(** The directories that must exist before a file can be written to
    [path]: its directory and the ancestors of that directory. *)
Definition parent_dirs (path : string) : list string :=
  if String.eqb (dirname path) "" then []
  else (ancestors (dirname path) ++ [dirname path])%list.

(** Nothing stands in the way of writing to [path]: it names a file, no
    directory has its name, and no file has the name of a directory that
    must exist. *)
Definition writable (f : filesystem) (path : string) : Prop :=
  path ≠ ""
  ∧ ends_with_slash path = false
  ∧ (path ∉ dirs f)
  ∧ (∀ d, d ∈ parent_dirs path → files f !! d = None).

(** *** The three variants, side by side *)

Inductive variant := Spot | Perp | MultiCategory.

Definition fetcher_of (v : variant) : ExchangeInfoFetcher :=
  match v with
  | Spot => BinanceSpotFetcher
  | Perp => BinancePerpFetcher
  | MultiCategory => BybitFetcher
  end.

(** The body of the variant's instrument loop. *)
Definition loop_body (v : variant) : json -> result (option row) :=
  match v with
  | Spot => binance_symbol "spot"
  | Perp => binance_symbol "perp"
  | MultiCategory => bybit_symbol
  end.

Definition instruments_of (v : variant) : json -> list json :=
  match v with
  | MultiCategory => bybit_instruments
  | _ => binance_instruments
  end.

(** The status that marks an instrument as trading. *)
Definition active_marker (v : variant) : string :=
  match v with
  | MultiCategory => "Trading"
  | _ => "TRADING"
  end.



(** The payload that holds exactly the given instruments. *)
Definition payload_of (v : variant) (insts : list json) : json :=
  match v with
  | MultiCategory => JDict {[ "result" := JDict {[ "list" := JList insts ]} ]}
  | _ => JDict {[ "symbols" := JList insts ]}
  end.

(** ** Sample data *)

Definition binance_filter (tag key value : string) : json :=
  JDict {[ "filterType" := JStr tag; key := JStr value ]}.

Definition binance_instrument (status sym bas quo : string) (filters : list json)
    : gmap string json :=
  {[ "status" := JStr status; "symbol" := JStr sym; "baseAsset" := JStr bas;
     "quoteAsset" := JStr quo; "filters" := JList filters ]}.

Definition mk_row (sym bas quo kind tick step : string) : row :=
  {| symbol := JStr sym; base := JStr bas; quote := JStr quo;
     instrument := JStr kind; priceTick := JStr tick; szTick := JStr step |}.

(** The end-to-end example of the specification. *)
Definition btcusdt : gmap string json :=
  binance_instrument "TRADING" "BTCUSDT" "BTC" "USDT"
    [binance_filter "PRICE_FILTER" "tickSize" "0.01";
     binance_filter "LOT_SIZE" "stepSize" "0.00001"].

(** The same instrument while trading is halted. *)
Definition btcusdt_break : gmap string json :=
  binance_instrument "BREAK" "BTCUSDT" "BTC" "USDT"
    [binance_filter "PRICE_FILTER" "tickSize" "0.01";
     binance_filter "LOT_SIZE" "stepSize" "0.00001"].

(** An instrument that lists each filter type twice. *)
Definition ethusdt_twice : gmap string json :=
  binance_instrument "TRADING" "ETHUSDT" "ETH" "USDT"
    [binance_filter "PRICE_FILTER" "tickSize" "0.01";
     binance_filter "LOT_SIZE" "stepSize" "1";
     binance_filter "PRICE_FILTER" "tickSize" "0.5";
     binance_filter "LOT_SIZE" "stepSize" "2"].



Definition bybit_instrument (sym bas quo category : string) (lot_key lot_value : string)
    : gmap string json :=
  {[ "status" := JStr "Trading"; "symbol" := JStr sym; "baseCoin" := JStr bas;
     "quoteCoin" := JStr quo; "category" := JStr category;
     "priceFilter" := JDict {[ "tickSize" := JStr "0.10" ]};
     "lotSizeFilter" := JDict {[ lot_key := JStr lot_value ]} ]}.

(** The size-tick examples of the specification. *)
Definition bybit_linear : gmap string json :=
  bybit_instrument "BTCUSDT" "BTC" "USDT" "linear" "qtyStep" "0.001".

Definition bybit_spot : gmap string json :=
  bybit_instrument "BTCUSDT" "BTC" "USDT" "spot" "basePrecision" "0.0001".

(** An instrument of a category the parser has no name for. *)
Definition bybit_option : gmap string json :=
  bybit_instrument "BTC-30JUN" "BTC" "USD" "option" "qtyStep" "0.01".

(** A computation that leaves the filesystem and standard error alone. *)
Definition net_only {A} (m : M A) : Prop :=
  ∀ w, fs (snd (m w)) = fs w ∧ stderr (snd (m w)) = stderr w.

(** *** A scripted Bybit session *)

(** The response that carries a page and nothing else. *)
Definition page_response (p : page) : response :=
  Response 200
    (JDict {[ "result" :=
                JDict {[ "list" := JList (map JDict (page_list p));
                         "nextPageCursor" := page_cursor p ]} ]}).

Definition named (sym : string) : gmap string json := {[ "symbol" := JStr sym ]}.

(** Two spot pages, the second without a token. *)
Definition spot_pages : list page :=
  [ {| page_list := [named "BTCUSDT"; named "ETHUSDT"]; page_cursor := JStr "p2" |};
    {| page_list := [named "SOLUSDT"]; page_cursor := JStr "" |} ].

(** A linear page with a token but no instrument. *)
Definition linear_pages : list page :=
  [ {| page_list := []; page_cursor := JStr "more" |} ].

(** An inverse page whose token is null. *)
Definition inverse_pages : list page :=
  [ {| page_list := [named "BTCUSD"]; page_cursor := JNull |} ].

Definition empty_fs : filesystem := {| dirs := ∅; files := ∅ |}.

Definition world_with (script : list response) : world :=
  {| net_script := script; net_log := []; fs := empty_fs; stderr := [] |}.

(** *** Sample runs of the program *)

(** A stand-in for [str] on values that are not strings. *)
Definition no_str (v : json) : string := "?".

(** An active instrument that lacks its [symbol] key. *)
Definition nameless_binance : gmap string json := delete "symbol" btcusdt.

(** A filesystem with one directory and one file in it. *)
Definition out_fs : filesystem :=
  {| dirs := {[ "out" ]}; files := {[ "out/old.csv" := "stale" ]} |}.

Definition world_on (f : filesystem) : world :=
  {| net_script := []; net_log := []; fs := f; stderr := [] |}.

Definition btcusdt_row : row := mk_row "BTCUSDT" "BTC" "USDT" "spot" "0.01" "0.00001".

Definition ethusdt_row : row := mk_row "ETHUSDT" "ETH" "USDT" "spot" "0.5" "2".

(** ** Further vocabulary and samples *)

(** Every entry of a filter list can be asked for its type tag. *)
Definition tagged_filters (filters : list json) : Prop :=
  Forall (fun f => is_Some (lookup_key f "filterType")) filters.

(** An active instrument that lists a price filter only. *)
Definition price_only : gmap string json :=
  binance_instrument "TRADING" "XRPUSDT" "XRP" "USDT"
    [binance_filter "PRICE_FILTER" "tickSize" "0.0001"].


(** What goes wrong with the next request, if anything: the script is
    exhausted, the host does not answer, or the response has an error
    status. *)
Definition next_fails (script : list response) : option request_error :=
  match script with
  | [] => Some ConnectionError
  | NoConnection :: _ => Some ConnectionError
  | Response st _ :: _ =>
      if (400 <=? st) && (st <? 600) then Some (HTTPError st) else None
  end.

(** The token in hand after a run of pages. *)
Fixpoint cursor_after (cursor : json) (ps : list page) : json :=
  match ps with
  | [] => cursor
  | p :: rest => cursor_after (page_cursor p) rest
  end.

(** The scripted pages of one category. *)
Record category_pages := {
  cat_name : string;
  cat_responses : list response;
  cat_pages : list page
}.

Definition complete_run (c : category_pages) : Prop :=
  Forall2 is_page (cat_responses c) (cat_pages c) ∧ category_run (cat_pages c).

(** An instrument as the Bybit fetcher hands it on: an object tagged with
    one of the three categories. *)
Definition fetched_instrument (inst : json) : Prop :=
  ∃ d c, inst = JDict d ∧ d !! "category" = Some (JStr c)
         ∧ (c = "spot" ∨ c = "linear" ∨ c = "inverse").

(** A first linear page that asks for more. *)
Definition linear_first : page :=
  {| page_list := [named "BTCPERP"]; page_cursor := JStr "n1" |}.


(** * Properties *)

(** ** The [result] monad *)

Lemma bind_result_ok {A B} (r : result A) (k : A -> result B) (b : B) :
  bind_result r k = Ok b → ∃ a, r = Ok a ∧ k a = Ok b.
Proof. destruct r as [a|e]; simpl; [eauto | discriminate]. Qed.

(** Inversion of a successful [let*] chain, one binding at a time. *)
Ltac inv_bind H :=
  let x := fresh "x" in
  let Hx := fresh "Hx" in
  apply bind_result_ok in H; destruct H as (x & Hx & H).

(** ** The instrument loop *)

Lemma for_symbols_acc body items acc :
  for_symbols body items acc
  = (let* rows := for_symbols body items [] in Ok (acc ++ rows)%list)%R.
Proof.
  revert acc. induction items as [|inst items IH]; intros acc; simpl.
  - by rewrite app_nil_r.
  - destruct (body inst) as [[rec|]|e]; simpl; [|apply IH|done].
    rewrite (IH (acc ++ [rec])%list), (IH [rec]).
    destruct (for_symbols body items []); simpl; [|done].
    by rewrite <- app_assoc.
Qed.

Lemma for_symbols_elem body items rows r :
  for_symbols body items [] = Ok rows → r ∈ rows →
  ∃ inst, inst ∈ items ∧ body inst = Ok (Some r).
Proof.
  revert rows. induction items as [|inst items IH]; intros rows; simpl.
  - intros [= <-] Hr. by apply elem_of_nil in Hr.
  - destruct (body inst) as [[rec|]|e] eqn:Hb; simpl; [| |done].
    + rewrite for_symbols_acc.
      destruct (for_symbols body items []) as [rows'|] eqn:Hrest; simpl; [|done].
      intros [= <-] Hr. apply elem_of_cons in Hr as [->|Hr].
      * exists inst. split; [apply elem_of_cons; by left | done].
      * destruct (IH rows' eq_refl Hr) as (i & Hi & Hbi).
        exists i. split; [apply elem_of_cons; by right | done].
    + intros Hrest Hr. destruct (IH rows Hrest Hr) as (i & Hi & Hbi).
      exists i. split; [apply elem_of_cons; by right | done].
Qed.

Lemma for_symbols_skip body l1 inst l2 acc :
  body inst = Ok None →
  for_symbols body (l1 ++ inst :: l2) acc = for_symbols body (l1 ++ l2) acc.
Proof.
  intros Hskip. revert acc. induction l1 as [|i l1 IH]; intros acc; simpl.
  - by rewrite Hskip.
  - destruct (body i) as [[rec|]|e]; simpl; [apply IH|apply IH|done].
Qed.

(** ** The Python operations *)

Lemma get_ok v key dflt x :
  Py.get v key dflt = Ok x → ∃ d, v = JDict d ∧ x = default dflt (d !! key).
Proof. destruct v; simpl; try discriminate. intros [= <-]. eauto. Qed.

Lemma getitem_ok v key x :
  Py.getitem v key = Ok x → lookup_key v key = Some x.
Proof.
  destruct v; simpl; try discriminate.
  destruct (d !! key); [|discriminate]. by intros [= <-].
Qed.

Lemma eq_str_true v lit : Py.eq_str v lit = true → v = JStr lit.
Proof.
  destruct v; simpl; try discriminate.
  intros H. apply String.eqb_eq in H. by subst.
Qed.

Lemma eq_str_refl lit : Py.eq_str (JStr lit) lit = true.
Proof. simpl. apply String.eqb_refl. Qed.

(** ** The Binance filter scan *)

Lemma default_last_cons {A} (x y : A) (l : list A) :
  default y (last (x :: l)) = default x (last l).
Proof. rewrite last_cons. by destruct (last l). Qed.

Lemma has_filter_type_lookup tag f x :
  lookup_key f "filterType" = Some x → has_filter_type tag f = Py.eq_str x tag.
Proof. intros H. unfold has_filter_type. by rewrite H. Qed.

Lemma binance_filters_last filters p q p' q' :
  binance_filters filters p q = Ok (p', q') →
  p' = default p (last (List.filter (has_filter_type "PRICE_FILTER") filters))
  ∧ q' = default q (last (List.filter (has_filter_type "LOT_SIZE") filters)).
Proof.
  revert p q. induction filters as [|f filters IH]; intros p q; simpl.
  - by intros [= <- <-].
  - intros H. inv_bind H. apply getitem_ok in Hx.
    rewrite !(has_filter_type_lookup _ _ _ Hx).
    destruct (Py.eq_str x "PRICE_FILTER") eqn:Hp.
    + apply eq_str_true in Hp as ->. simpl.
      rewrite default_last_cons. by apply IH in H.
    + destruct (Py.eq_str x "LOT_SIZE") eqn:Hq.
      * rewrite default_last_cons. by apply IH in H.
      * by apply IH in H.
Qed.

Lemma default_eq_str (o : option json) (dflt : json) (lit : string) :
  Py.eq_str (default dflt o) lit = true → Py.eq_str dflt lit = false →
  o = Some (JStr lit).
Proof.
  destruct o as [v|]; simpl; intros H Hd.
  - by apply eq_str_true in H as ->.
  - congruence.
Qed.

Lemma truthy_default_last (l : list json) :
  Py.truthy (default JNull (last l)) = true → ∃ x, last l = Some x.
Proof. destruct (last l); simpl; [eauto | discriminate]. Qed.

(** ** What one instrument contributes *)

(** An emitted Binance record, read back against its instrument. *)
Lemma binance_symbol_some kind inst r :
  binance_symbol kind inst = Ok (Some r) →
  ∃ pf qf,
    lookup_key inst "status" = Some (JStr "TRADING")
    ∧ last (List.filter (has_filter_type "PRICE_FILTER") (filter_entries inst)) = Some pf
    ∧ last (List.filter (has_filter_type "LOT_SIZE") (filter_entries inst)) = Some qf
    ∧ lookup_key inst "symbol" = Some (symbol r)
    ∧ lookup_key inst "baseAsset" = Some (base r)
    ∧ lookup_key inst "quoteAsset" = Some (quote r)
    ∧ instrument r = JStr kind
    ∧ priceTick r = field_or_empty pf "tickSize"
    ∧ szTick r = field_or_empty qf "stepSize".
Proof.
  unfold binance_symbol. intros H.
  inv_bind H. apply get_ok in Hx as (d & -> & ->).
  destruct (Py.eq_str (default JNull (d !! "status")) "TRADING") eqn:Hst;
    cbn [negb] in H; [|discriminate].
  apply default_eq_str in Hst; [|done].
  inv_bind H. inv_bind H. inv_bind H. destruct x1 as [p q]. cbn [fst snd] in H.
  apply binance_filters_last in Hx1 as [-> ->].
  assert (filter_entries (JDict d) = x0) as Hent.
  { unfold filter_entries. rewrite Hx. cbn [bind_result]. by rewrite Hx0. }
  rewrite Hent.
  destruct (Py.truthy (default JNull (last (List.filter (has_filter_type "PRICE_FILTER") x0))))
    eqn:Hp; cbn [andb] in H; [|discriminate].
  destruct (Py.truthy (default JNull (last (List.filter (has_filter_type "LOT_SIZE") x0))))
    eqn:Hq; [|discriminate].
  apply truthy_default_last in Hp as [pf Hpf], Hq as [qf Hqf].
  rewrite Hpf, Hqf in H. cbn [from_option id] in H.
  do 5 inv_bind H. injection H as <-. cbn [symbol base quote instrument priceTick szTick].
  apply getitem_ok in Hx1, Hx2, Hx3.
  apply get_ok in Hx4 as (dp & -> & ->), Hx5 as (dq & -> & ->).
  exists (JDict dp), (JDict dq). by repeat split.
Qed.

(** An instrument that is not marked ["TRADING"] contributes nothing. *)
Lemma binance_symbol_inactive kind (d : gmap string json) :
  d !! "status" ≠ Some (JStr "TRADING") → binance_symbol kind (JDict d) = Ok None.
Proof.
  intros Hst. unfold binance_symbol. simpl.
  destruct (Py.eq_str (default JNull (d !! "status")) "TRADING") eqn:E; [|done].
  apply default_eq_str in E; done.
Qed.

(** An emitted Bybit record, read back against its instrument. *)
Lemma bybit_symbol_some inst r :
  bybit_symbol inst = Ok (Some r) →
  ∃ pf lf,
    lookup_key inst "status" = Some (JStr "Trading")
    ∧ bybit_filter inst "priceFilter" = JDict pf
    ∧ bybit_filter inst "lotSizeFilter" = JDict lf
    ∧ lookup_key inst "symbol" = Some (symbol r)
    ∧ lookup_key inst "baseCoin" = Some (base r)
    ∧ lookup_key inst "quoteCoin" = Some (quote r)
    ∧ priceTick r = default (JStr "") (pf !! "tickSize")
    ∧ szTick r =
        (if Py.eq_str (bybit_category inst) "linear" || Py.eq_str (bybit_category inst) "inverse"
         then default (JStr "") (lf !! "qtyStep")
         else default (JStr "") (lf !! "basePrecision"))
    ∧ instrument r =
        (if Py.eq_str (bybit_category inst) "spot" then JStr "spot"
         else if Py.eq_str (bybit_category inst) "linear" then JStr "perp"
         else if Py.eq_str (bybit_category inst) "inverse" then JStr "inverse"
         else bybit_category inst).
Proof.
  unfold bybit_symbol. intros H.
  inv_bind H. apply get_ok in Hx as (d & -> & ->).
  destruct (Py.eq_str (default JNull (d !! "status")) "Trading") eqn:Hst;
    cbn [negb] in H; [|discriminate].
  apply default_eq_str in Hst; [|done].
  do 3 inv_bind H.
  apply get_ok in Hx as (? & [= <-] & ->), Hx0 as (? & [= <-] & ->),
    Hx1 as (? & [= <-] & ->).
  unfold bybit_filter, bybit_category. cbn [lookup_key].
  set (c := default (JStr "spot") (d !! "category")) in *.
  inv_bind H.
  assert (∃ lf, default (JDict ∅) (d !! "lotSizeFilter") = JDict lf
                ∧ x = if Py.eq_str c "linear" || Py.eq_str c "inverse"
                      then default (JStr "") (lf !! "qtyStep")
                      else default (JStr "") (lf !! "basePrecision")) as (lf & Hlf & ->).
  { destruct (Py.eq_str c "linear" || Py.eq_str c "inverse");
      apply get_ok in Hx as (lf & ? & ?); eauto. }
  do 4 inv_bind H. injection H as <-. cbn [symbol base quote instrument priceTick szTick].
  apply getitem_ok in Hx0, Hx1, Hx2. cbn [lookup_key] in Hx0, Hx1, Hx2.
  apply get_ok in Hx3 as (pf & Hpf & ->).
  exists pf, lf. by repeat split.
Qed.

Lemma bybit_symbol_inactive (d : gmap string json) :
  d !! "status" ≠ Some (JStr "Trading") → bybit_symbol (JDict d) = Ok None.
Proof.
  intros Hst. unfold bybit_symbol. simpl.
  destruct (Py.eq_str (default JNull (d !! "status")) "Trading") eqn:E; [|done].
  apply default_eq_str in E; done.
Qed.

(** ** From the parse operations to single instruments *)

Lemma binance_parse_elem kind exchange_info rows r :
  binance_parse_symbols kind exchange_info = Ok rows → r ∈ rows →
  ∃ inst, inst ∈ binance_instruments exchange_info
          ∧ binance_symbol kind inst = Ok (Some r).
Proof.
  unfold binance_parse_symbols, binance_instruments. intros H Hr.
  do 2 inv_bind H. rewrite Hx. simpl. rewrite Hx0.
  eapply for_symbols_elem; eauto.
Qed.

Lemma bybit_parse_elem exchange_info rows r :
  bybit_parse_symbols exchange_info = Ok rows → r ∈ rows →
  ∃ inst, inst ∈ bybit_instruments exchange_info ∧ bybit_symbol inst = Ok (Some r).
Proof.
  unfold bybit_parse_symbols, bybit_instruments. intros H Hr.
  do 3 inv_bind H. rewrite Hx. simpl. rewrite Hx0. simpl. rewrite Hx1.
  eapply for_symbols_elem; eauto.
Qed.

Lemma parse_symbols_elem v exchange_info rows r :
  parse_symbols (fetcher_of v) exchange_info = Ok rows → r ∈ rows →
  ∃ inst, inst ∈ instruments_of v exchange_info ∧ loop_body v inst = Ok (Some r).
Proof.
  destruct v; simpl.
  - apply binance_parse_elem.
  - apply binance_parse_elem.
  - apply bybit_parse_elem.
Qed.

Lemma parse_payload_of v insts :
  parse_symbols (fetcher_of v) (payload_of v insts) = for_symbols (loop_body v) insts [].
Proof. by destruct v. Qed.

(** ** Active status *)

(** C6: an instrument whose status is not the variant's active-trading
    marker is never emitted. Every record of a successful parse stems from
    an instrument whose status is exactly the marker (["TRADING"] for the
    Binance variants, ["Trading"] for Bybit), and taking an instrument with
    any other status out of a payload does not change what parsing yields. *)
Theorem inactive_never_emitted (v : variant) :
  (∀ exchange_info rows r,
     parse_symbols (fetcher_of v) exchange_info = Ok rows → r ∈ rows →
     ∃ inst, inst ∈ instruments_of v exchange_info
             ∧ lookup_key inst "status" = Some (JStr (active_marker v))
             ∧ loop_body v inst = Ok (Some r))
  ∧ (∀ (l1 l2 : list json) (d : gmap string json),
       d !! "status" ≠ Some (JStr (active_marker v)) →
       parse_symbols (fetcher_of v) (payload_of v (l1 ++ JDict d :: l2))
       = parse_symbols (fetcher_of v) (payload_of v (l1 ++ l2))).
Proof.
  split.
  - intros exchange_info rows r Hparse Hr.
    destruct (parse_symbols_elem _ _ _ _ Hparse Hr) as (inst & Hin & Hbody).
    exists inst. repeat split; [done| |done].
    destruct v; simpl in Hbody |- *.
    + by apply binance_symbol_some in Hbody as (? & ? & ? & _).
    + by apply binance_symbol_some in Hbody as (? & ? & ? & _).
    + by apply bybit_symbol_some in Hbody as (? & ? & ? & _).
  - intros l1 l2 d Hst. rewrite !parse_payload_of.
    apply for_symbols_skip.
    destruct v; simpl in Hst |- *;
      [by apply binance_symbol_inactive .. | by apply bybit_symbol_inactive].
Qed.

Lemma inactive_never_emitted_witness :
  btcusdt_break !! "status" ≠ Some (JStr "TRADING")
  ∧ parse_symbols BinanceSpotFetcher (payload_of Spot [JDict btcusdt_break]) = Ok [].
Proof.
  assert (btcusdt_break !! "status" ≠ Some (JStr "TRADING")) as H
    by (vm_compute; discriminate).
  split; [exact H|].
  exact (proj2 (inactive_never_emitted Spot) [] [] btcusdt_break H).
Defined.

(** The markers are case-sensitive: an instrument marked like those of the
    other exchange is skipped. *)
Example marker_case_sensitive :
  parse_symbols BinanceSpotFetcher
    (payload_of Spot [JDict (<["status" := JStr "Trading"]> btcusdt)]) = Ok []
  ∧ parse_symbols BybitFetcher
      (payload_of MultiCategory [JDict (<["status" := JStr "TRADING"]> bybit_linear)]) = Ok []
  ∧ parse_symbols BinanceSpotFetcher (payload_of Spot [JDict btcusdt])
    = Ok [mk_row "BTCUSDT" "BTC" "USDT" "spot" "0.01" "0.00001"].
Proof. repeat split; vm_compute; reflexivity. Qed.

(** ** Binance: which filter entry a record is taken from *)

(** C10: in the Binance spot and perpetual parsers, when an instrument
    lists several filters with the type tag PRICE_FILTER (or LOT_SIZE), the
    record's priceTick (szTick) is taken from the last entry with that tag,
    in list order. *)
Theorem binance_last_filter_wins (v : variant) exchange_info rows r :
  v = Spot ∨ v = Perp →
  parse_symbols (fetcher_of v) exchange_info = Ok rows → r ∈ rows →
  ∃ inst pf qf,
    inst ∈ binance_instruments exchange_info
    ∧ loop_body v inst = Ok (Some r)
    ∧ last (List.filter (has_filter_type "PRICE_FILTER") (filter_entries inst)) = Some pf
    ∧ last (List.filter (has_filter_type "LOT_SIZE") (filter_entries inst)) = Some qf
    ∧ priceTick r = field_or_empty pf "tickSize"
    ∧ szTick r = field_or_empty qf "stepSize".
Proof.
  intros Hv Hparse Hr.
  destruct (parse_symbols_elem _ _ _ _ Hparse Hr) as (inst & Hin & Hbody).
  assert (∃ kind, loop_body v inst = binance_symbol kind inst
                  ∧ instruments_of v = binance_instruments) as (kind & Hk & Hi)
    by (destruct Hv as [-> | ->]; eexists; split; reflexivity).
  rewrite Hi in Hin. pose proof Hbody as Hb. rewrite Hk in Hb.
  apply binance_symbol_some in Hb as (pf & qf & _ & Hpf & Hqf & _ & _ & _ & _ & Ht & Hs).
  exists inst, pf, qf. by repeat split.
Qed.

Lemma binance_last_filter_wins_witness :
  (Perp = Spot ∨ Perp = Perp)
  ∧ parse_symbols BinancePerpFetcher (payload_of Perp [JDict ethusdt_twice])
    = Ok [mk_row "ETHUSDT" "ETH" "USDT" "perp" "0.5" "2"]
  ∧ ∃ inst pf qf,
      inst ∈ binance_instruments (payload_of Perp [JDict ethusdt_twice])
      ∧ loop_body Perp inst = Ok (Some (mk_row "ETHUSDT" "ETH" "USDT" "perp" "0.5" "2"))
      ∧ last (List.filter (has_filter_type "PRICE_FILTER") (filter_entries inst)) = Some pf
      ∧ last (List.filter (has_filter_type "LOT_SIZE") (filter_entries inst)) = Some qf
      ∧ JStr "0.5" = field_or_empty pf "tickSize"
      ∧ JStr "2" = field_or_empty qf "stepSize".
Proof.
  split; [by right|]. split; [vm_compute; reflexivity|].
  apply (binance_last_filter_wins Perp (payload_of Perp [JDict ethusdt_twice])
           [mk_row "ETHUSDT" "ETH" "USDT" "perp" "0.5" "2"]).
  - by right.
  - vm_compute. reflexivity.
  - apply list_elem_of_here.
Defined.

(** ** Bybit: tick selection and the instrument taxonomy *)

(** C7: for every record emitted from a Bybit payload, priceTick is the
    [tickSize] field of the instrument's price filter, and szTick is the
    [qtyStep] field of its lot-size filter when the category is linear or
    inverse and the [basePrecision] field when the category is spot (an
    absent field reads as the empty string). *)
Theorem bybit_tick_selection exchange_info rows r :
  parse_symbols BybitFetcher exchange_info = Ok rows → r ∈ rows →
  ∃ inst,
    inst ∈ bybit_instruments exchange_info
    ∧ bybit_symbol inst = Ok (Some r)
    ∧ priceTick r = field_or_empty (bybit_filter inst "priceFilter") "tickSize"
    ∧ (bybit_category inst = JStr "linear" ∨ bybit_category inst = JStr "inverse" →
       szTick r = field_or_empty (bybit_filter inst "lotSizeFilter") "qtyStep")
    ∧ (bybit_category inst = JStr "spot" →
       szTick r = field_or_empty (bybit_filter inst "lotSizeFilter") "basePrecision").
Proof.
  intros Hparse Hr.
  destruct (parse_symbols_elem MultiCategory _ _ _ Hparse Hr) as (inst & Hin & Hbody).
  simpl in Hin, Hbody. exists inst. split; [done|]. split; [done|].
  apply bybit_symbol_some in Hbody
    as (pf & lf & _ & Hpf & Hlf & _ & _ & _ & Ht & Hs & _).
  rewrite Hpf, Hlf. unfold field_or_empty. simpl. split; [done|].
  split; [intros [Hc|Hc]|intros Hc]; rewrite Hc in Hs; exact Hs.
Qed.

Lemma bybit_tick_selection_witness :
  parse_symbols BybitFetcher (payload_of MultiCategory [JDict bybit_linear; JDict bybit_spot])
  = Ok [mk_row "BTCUSDT" "BTC" "USDT" "perp" "0.10" "0.001";
        mk_row "BTCUSDT" "BTC" "USDT" "spot" "0.10" "0.0001"]
  ∧ ∃ inst,
      inst ∈ bybit_instruments (payload_of MultiCategory [JDict bybit_linear; JDict bybit_spot])
      ∧ bybit_symbol inst = Ok (Some (mk_row "BTCUSDT" "BTC" "USDT" "perp" "0.10" "0.001"))
      ∧ JStr "0.10" = field_or_empty (bybit_filter inst "priceFilter") "tickSize"
      ∧ (bybit_category inst = JStr "linear" ∨ bybit_category inst = JStr "inverse" →
         JStr "0.001" = field_or_empty (bybit_filter inst "lotSizeFilter") "qtyStep")
      ∧ (bybit_category inst = JStr "spot" →
         JStr "0.001" = field_or_empty (bybit_filter inst "lotSizeFilter") "basePrecision").
Proof.
  split; [vm_compute; reflexivity|].
  apply (bybit_tick_selection
           (payload_of MultiCategory [JDict bybit_linear; JDict bybit_spot])
           [mk_row "BTCUSDT" "BTC" "USDT" "perp" "0.10" "0.001";
            mk_row "BTCUSDT" "BTC" "USDT" "spot" "0.10" "0.0001"]).
  - vm_compute. reflexivity.
  - apply list_elem_of_here.
Defined.

(** C8: for every record emitted from a Bybit payload, the instrument field
    is the image of the instrument's category: spot gives spot, linear gives
    perp, inverse gives inverse, and any other category value is passed
    through unchanged. *)
Theorem bybit_instrument_mapping exchange_info rows r :
  parse_symbols BybitFetcher exchange_info = Ok rows → r ∈ rows →
  ∃ inst,
    inst ∈ bybit_instruments exchange_info
    ∧ bybit_symbol inst = Ok (Some r)
    ∧ (bybit_category inst = JStr "spot" → instrument r = JStr "spot")
    ∧ (bybit_category inst = JStr "linear" → instrument r = JStr "perp")
    ∧ (bybit_category inst = JStr "inverse" → instrument r = JStr "inverse")
    ∧ (bybit_category inst ≠ JStr "spot" → bybit_category inst ≠ JStr "linear" →
       bybit_category inst ≠ JStr "inverse" → instrument r = bybit_category inst).
Proof.
  intros Hparse Hr.
  destruct (parse_symbols_elem MultiCategory _ _ _ Hparse Hr) as (inst & Hin & Hbody).
  simpl in Hin, Hbody. exists inst. split; [done|]. split; [done|].
  apply bybit_symbol_some in Hbody
    as (pf & lf & _ & _ & _ & _ & _ & _ & _ & _ & Hi).
  repeat split.
  - intros Hc. by rewrite Hc in Hi.
  - intros Hc. by rewrite Hc in Hi.
  - intros Hc. by rewrite Hc in Hi.
  - intros H1 H2 H3.
    destruct (Py.eq_str (bybit_category inst) "spot") eqn:E1;
      [by apply eq_str_true in E1|].
    destruct (Py.eq_str (bybit_category inst) "linear") eqn:E2;
      [by apply eq_str_true in E2|].
    destruct (Py.eq_str (bybit_category inst) "inverse") eqn:E3;
      [by apply eq_str_true in E3|].
    exact Hi.
Qed.

Lemma bybit_instrument_mapping_witness :
  parse_symbols BybitFetcher
    (payload_of MultiCategory [JDict bybit_option; JDict bybit_linear])
  = Ok [mk_row "BTC-30JUN" "BTC" "USD" "option" "0.10" "";
        mk_row "BTCUSDT" "BTC" "USDT" "perp" "0.10" "0.001"]
  ∧ ∃ inst,
      inst ∈ bybit_instruments (payload_of MultiCategory [JDict bybit_option; JDict bybit_linear])
      ∧ bybit_symbol inst = Ok (Some (mk_row "BTC-30JUN" "BTC" "USD" "option" "0.10" ""))
      ∧ (bybit_category inst = JStr "spot" → JStr "option" = JStr "spot")
      ∧ (bybit_category inst = JStr "linear" → JStr "option" = JStr "perp")
      ∧ (bybit_category inst = JStr "inverse" → JStr "option" = JStr "inverse")
      ∧ (bybit_category inst ≠ JStr "spot" → bybit_category inst ≠ JStr "linear" →
         bybit_category inst ≠ JStr "inverse" → JStr "option" = bybit_category inst).
Proof.
  split; [vm_compute; reflexivity|].
  apply (bybit_instrument_mapping
           (payload_of MultiCategory [JDict bybit_option; JDict bybit_linear])
           [mk_row "BTC-30JUN" "BTC" "USD" "option" "0.10" "";
            mk_row "BTCUSDT" "BTC" "USDT" "perp" "0.10" "0.001"]).
  - vm_compute. reflexivity.
  - apply list_elem_of_here.
Defined.

(** ** The fields of an emitted record *)




(** ** The scripted network *)

Lemma tag_symbols_dicts category (l : list (gmap string json)) :
  tag_symbols category (map JDict l)
  = Ok (map (fun d => JDict (<["category" := JStr category]> d)) l).
Proof. induction l as [|d l IH]; simpl; [done|]. by rewrite IH. Qed.

Lemma tagged_cons category p ps :
  tagged category (p :: ps)
  = (map (fun d => JDict (<["category" := JStr category]> d)) (page_list p)
     ++ tagged category ps)%list.
Proof. done. Qed.

(** One iteration of the loop on a scripted page. *)
Lemma bybit_page_is_page base category cursor acc w r rest p :
  net_script w = r :: rest → is_page r p →
  bybit_page base category cursor acc w
  = (Ok (if page_continues p
         then Continue (page_cursor p) (acc ++ tagged category [p])
         else Break (acc ++ tagged category [p])),
     answered w rest [page_request base category cursor]).
Proof.
  intros Hscript (st & d & res & -> & Hst & Hres & Hlist & Hcur).
  unfold bybit_page, bind, requests_get, raise_for_status, lift, ret.
  rewrite Hscript. cbn [tail fst snd]. rewrite Hst. unfold Py.get at 1 2 3 4.
  rewrite Hres. cbn [from_option id]. rewrite Hlist. cbn [from_option id Py.iter].
  rewrite tag_symbols_dicts, Hcur. unfold page_continues.
  rewrite tagged_cons. unfold tagged at 1 2. cbn [flat_map]. rewrite !app_nil_r.
  cbn [Py.truthy]. rewrite length_map.
  unfold answered, page_request.
  by destruct (Py.truthy (page_cursor p)), (Nat.eqb (length (page_list p)) 0).
Qed.

Lemma bybit_paginate_unfold fuel base category cursor acc :
  bybit_paginate fuel base category cursor acc
  = bind (bybit_page base category cursor acc)
      (fun step =>
         match step with
         | Break acc' => ret acc'
         | Continue next_cursor acc' =>
             match fuel with
             | O => ret acc'
             | S fuel' => bybit_paginate fuel' base category next_cursor acc'
             end
         end).
Proof. by destruct fuel. Qed.

Lemma answered_answered w rest reqs rest' reqs' :
  answered (answered w rest reqs) rest' reqs' = answered w rest' (reqs ++ reqs').
Proof. unfold answered. simpl. by rewrite app_assoc. Qed.

(** The loop over the pages of one category: it asks for page after page
    until the first page that does not continue, and leaves the rest of the
    script untouched. *)
Lemma bybit_paginate_run base category init :
  ∀ final rs rest cursor acc w fuel,
    net_script w = (rs ++ rest)%list →
    Forall2 is_page rs (init ++ [final]) →
    Forall (fun p => page_continues p = true) init →
    page_continues final = false →
    (length init <= fuel)%nat →
    bybit_paginate fuel base category cursor acc w
    = (Ok (acc ++ tagged category (init ++ [final]))%list,
       answered w rest (page_requests base category cursor (init ++ [final]))).
Proof.
  induction init as [|p init IH];
    intros final rs rest cursor acc w fuel Hscript Hpages Hinit Hfinal Hfuel.
  - apply Forall2_cons_inv_r in Hpages as (r & rs' & Hr & Hnil & ->).
    apply Forall2_nil_inv_r in Hnil as ->.
    rewrite bybit_paginate_unfold. unfold bind.
    rewrite (bybit_page_is_page _ _ _ _ _ r rest final Hscript Hr), Hfinal.
    done.
  - simpl in Hpages. apply Forall2_cons_inv_r in Hpages as (r & rs' & Hr & Hrest & ->).
    apply Forall_cons in Hinit as [Hp Hinit].
    destruct fuel as [|fuel]; [simpl in Hfuel; lia|].
    rewrite bybit_paginate_unfold. unfold bind.
    rewrite (bybit_page_is_page _ _ _ _ _ r (rs' ++ rest) p Hscript Hr), Hp.
    rewrite (IH final rs' rest); try done; [|simpl in Hfuel; lia].
    rewrite answered_answered. simpl.
    by rewrite app_nil_r, <- app_assoc.
Qed.

(** Whatever the answer, an iteration consumes one scripted response and
    logs its request. *)
Lemma bybit_page_world base category cursor acc w :
  snd (bybit_page base category cursor acc w)
  = answered w (tail (net_script w)) [page_request base category cursor].
Proof.
  unfold bybit_page, bind, requests_get, raise_for_status, lift, ret, answered, page_request.
  destruct (Py.truthy cursor); destruct (net_script w) as [|[|st b] rest];
    cbn [tail]; try done; repeat case_match; simplify_eq; done.
Qed.

Lemma bybit_page_ok_script base category cursor acc w step w' :
  bybit_page base category cursor acc w = (Ok step, w') →
  ∃ r, net_script w = r :: net_script w'.
Proof.
  intros H. pose proof (bybit_page_world base category cursor acc w) as Hw.
  rewrite H in Hw. simpl in Hw. subst w'. simpl.
  unfold bybit_page, bind, requests_get in H.
  destruct (net_script w) as [|r rest]; [discriminate|]. eauto.
Qed.

(** The fuel of the pagination loop never runs out before the script does:
    any two amounts that cover the script give the same run. *)
Lemma bybit_paginate_fuel base category n :
  ∀ m cursor acc w,
    (length (net_script w) <= n)%nat → (length (net_script w) <= m)%nat →
    bybit_paginate n base category cursor acc w
    = bybit_paginate m base category cursor acc w.
Proof.
  induction n as [|n IH]; intros m cursor acc w Hn Hm;
    rewrite (bybit_paginate_unfold _ base), (bybit_paginate_unfold m base); unfold bind;
    destruct (bybit_page base category cursor acc w) as [[[acc'|next acc']|e] w'] eqn:E;
    try done;
    apply bybit_page_ok_script in E as [r Hr]; rewrite Hr in Hn, Hm; simpl in Hn, Hm.
  - lia.
  - destruct m as [|m]; [lia|]. apply IH; lia.
Qed.

(** ** Fetching leaves the filesystem alone *)

Lemma net_only_ret {A} (a : A) : net_only (ret a).
Proof. by intros w. Qed.

Lemma net_only_lift {A} (r : result A) : net_only (lift r).
Proof. by intros w. Qed.

Lemma net_only_bind {A B} (m : M A) (k : A -> M B) :
  net_only m → (∀ a, net_only (k a)) → net_only (bind m k).
Proof.
  intros Hm Hk w. unfold bind. specialize (Hm w).
  destruct (m w) as [[a|e] w']; simpl in Hm; [|done].
  destruct (Hk a w') as [Hf He]. by rewrite Hf, He.
Qed.

Lemma net_only_requests_get u ps : net_only (requests_get u ps).
Proof. intros w. unfold requests_get. by repeat case_match. Qed.

Lemma net_only_raise_for_status resp : net_only (raise_for_status resp).
Proof. intros w. unfold raise_for_status. by case_match. Qed.

Lemma net_only_binance u : net_only (binance_get_exchange_info u).
Proof.
  unfold binance_get_exchange_info.
  apply net_only_bind; [apply net_only_requests_get|]. intros resp.
  apply net_only_bind; [apply net_only_raise_for_status|]. intros _.
  apply net_only_ret.
Qed.

Lemma net_only_bybit_page base category cursor acc :
  net_only (bybit_page base category cursor acc).
Proof. intros w. by rewrite bybit_page_world. Qed.

Lemma net_only_bybit_paginate fuel base category :
  ∀ cursor acc, net_only (bybit_paginate fuel base category cursor acc).
Proof.
  induction fuel as [|fuel IH]; intros cursor acc; rewrite bybit_paginate_unfold;
    (apply net_only_bind; [apply net_only_bybit_page|]);
    intros [acc'|next acc']; try apply net_only_ret.
  apply IH.
Qed.

Lemma net_only_bybit_categories base categories :
  ∀ acc, net_only (bybit_categories base categories acc).
Proof.
  induction categories as [|category rest IH]; intros acc; simpl.
  - apply net_only_ret.
  - apply net_only_bind; [|apply IH].
    intros w. apply net_only_bybit_paginate.
Qed.

Lemma net_only_get_exchange_info v : net_only (get_exchange_info (fetcher_of v)).
Proof.
  destruct v; simpl; try apply net_only_binance.
  unfold bybit_get_exchange_info.
  apply net_only_bind; [apply net_only_bybit_categories|]. intros a. apply net_only_ret.
Qed.

(** ** Bybit pagination *)

Lemma category_run_length ps : category_run ps → ∃ init final, ps = (init ++ [final])%list
  ∧ Forall (fun p => page_continues p = true) init ∧ page_continues final = false
  ∧ length ps = S (length init).
Proof.
  intros (init & final & -> & Hi & Hf). exists init, final.
  repeat split; try done. rewrite length_app. simpl. lia.
Qed.

(** One category, from the entry of its [while] loop to the [break]. *)
Lemma bybit_category_run base category rs rest ps acc w :
  net_script w = (rs ++ rest)%list → Forall2 is_page rs ps → category_run ps →
  bybit_paginate (length (net_script w)) base category JNull acc w
  = (Ok (acc ++ tagged category ps)%list,
     answered w rest (page_requests base category JNull ps)).
Proof.
  intros Hscript Hpages Hrun.
  apply category_run_length in Hrun as (init & final & -> & Hinit & Hfinal & Hlen).
  apply (bybit_paginate_run base category init final rs rest); try done.
  rewrite Hscript, length_app, (Forall2_length _ _ _ Hpages), Hlen. lia.
Qed.

(** C3: on a script that holds the pages of the three categories,
    [get_exchange_info] asks for spot, then linear, then inverse; within a
    category it asks for one page after the other, passing on the token of
    the page before, and stops at the first page that has no next-cursor
    token or no instrument, leaving the rest of the script unread; the
    payload it returns lists the instruments of all the pages it read, in
    that order, each tagged with its category. *)
Theorem bybit_pagination w rs1 rs2 rs3 rest ps1 ps2 ps3 :
  net_script w = (rs1 ++ rs2 ++ rs3 ++ rest)%list →
  Forall2 is_page rs1 ps1 → Forall2 is_page rs2 ps2 → Forall2 is_page rs3 ps3 →
  category_run ps1 → category_run ps2 → category_run ps3 →
  get_exchange_info BybitFetcher w
  = (Ok (JDict {[ "result" :=
                    JDict {[ "list" :=
                               JList (tagged "spot" ps1 ++ tagged "linear" ps2
                                      ++ tagged "inverse" ps3) ]} ]}),
     answered w rest
       (page_requests (base_url BybitFetcher) "spot" JNull ps1
        ++ page_requests (base_url BybitFetcher) "linear" JNull ps2
        ++ page_requests (base_url BybitFetcher) "inverse" JNull ps3)).
Proof.
  intros Hscript H1 H2 H3 R1 R2 R3.
  cbn [get_exchange_info BybitFetcher base_url].
  unfold bybit_get_exchange_info. cbn [bybit_categories]. unfold bind, ret.
  rewrite (bybit_category_run _ "spot" rs1 (rs2 ++ rs3 ++ rest) ps1); [|done..].
  set (w1 := answered w _ _).
  rewrite (bybit_category_run _ "linear" rs2 (rs3 ++ rest) ps2 _ w1); [|done..].
  set (w2 := answered w1 _ _).
  rewrite (bybit_category_run _ "inverse" rs3 rest ps3 _ w2); [|done..].
  subst w2 w1. by rewrite !answered_answered, <- !app_assoc.
Qed.

Lemma is_page_response p : is_page (page_response p) p.
Proof.
  eexists 200, _, _. split; [reflexivity|]. split; [done|].
  split; [apply lookup_singleton_eq|]. split.
  - apply lookup_insert_eq.
  - rewrite lookup_insert_ne; [|done]. by rewrite lookup_singleton_eq.
Qed.

Lemma bybit_pagination_witness :
  get_exchange_info BybitFetcher
    (world_with (map page_response (spot_pages ++ linear_pages ++ inverse_pages)
                 ++ [NoConnection]))
  = (Ok (JDict {[ "result" :=
                    JDict {[ "list" :=
                               JList (tagged "spot" spot_pages ++ tagged "linear" linear_pages
                                      ++ tagged "inverse" inverse_pages) ]} ]}),
     answered
       (world_with (map page_response (spot_pages ++ linear_pages ++ inverse_pages)
                    ++ [NoConnection]))
       [NoConnection]
       (page_requests (base_url BybitFetcher) "spot" JNull spot_pages
        ++ page_requests (base_url BybitFetcher) "linear" JNull linear_pages
        ++ page_requests (base_url BybitFetcher) "inverse" JNull inverse_pages)).
Proof.
  apply (bybit_pagination _ (map page_response spot_pages) (map page_response linear_pages)
           (map page_response inverse_pages) [NoConnection]).
  - reflexivity.
  - repeat constructor; apply is_page_response.
  - repeat constructor; apply is_page_response.
  - repeat constructor; apply is_page_response.
  - exists [ {| page_list := [named "BTCUSDT"; named "ETHUSDT"]; page_cursor := JStr "p2" |} ],
      {| page_list := [named "SOLUSDT"]; page_cursor := JStr "" |}.
    split; [reflexivity|]. split; [repeat constructor | reflexivity].
  - exists [], {| page_list := []; page_cursor := JStr "more" |}.
    split; [reflexivity|]. split; [constructor | reflexivity].
  - exists [], {| page_list := [named "BTCUSD"]; page_cursor := JNull |}.
    split; [reflexivity|]. split; [constructor | reflexivity].
Defined.

(** The same session, evaluated: four requests, the second with the token
    of the first spot page, and four instruments. *)
Example bybit_session :
  let run := get_exchange_info BybitFetcher
               (world_with (map page_response (spot_pages ++ linear_pages ++ inverse_pages)
                            ++ [NoConnection])) in
  fst run
  = Ok (payload_of MultiCategory
          [JDict (<["category" := JStr "spot"]> (named "BTCUSDT"));
           JDict (<["category" := JStr "spot"]> (named "ETHUSDT"));
           JDict (<["category" := JStr "spot"]> (named "SOLUSDT"));
           JDict (<["category" := JStr "inverse"]> (named "BTCUSD"))])
  ∧ map params (net_log (snd run))
    = [[("category", JStr "spot"); ("limit", JInt 1000)];
       [("category", JStr "spot"); ("limit", JInt 1000); ("cursor", JStr "p2")];
       [("category", JStr "linear"); ("limit", JInt 1000)];
       [("category", JStr "inverse"); ("limit", JInt 1000)]]
  ∧ net_script (snd run) = [NoConnection].
Proof. vm_compute. repeat split; reflexivity. Qed.

(** ** The orchestrator *)

Lemma string_app_assoc (a b c : string) : (a ++ b) ++ c = a ++ b ++ c.
Proof.
  induction a as [|x a IH]; [reflexivity|].
  change (String x ((a ++ b) ++ c) = String x (a ++ b ++ c)). by rewrite IH.
Qed.

(** The stages of the pipeline, one after the other. *)
Lemma pipeline_stages py_str market dst w :
  pipeline py_str market dst w
  = match get_fetcher market with
    | Raise e => (Raise e, w)
    | Ok fetcher =>
        match get_exchange_info fetcher w with
        | (Raise e, w1) => (Raise e, w1)
        | (Ok exchange_info, w1) =>
            match parse_symbols fetcher exchange_info with
            | Raise e => (Raise e, w1)
            | Ok symbols => write_csv py_str symbols dst w1
            end
        end
    end.
Proof.
  unfold pipeline, bind, lift.
  destruct (get_fetcher market) as [f|e]; [|done].
  destruct (get_exchange_info f w) as [[info|e] w1]; [|done].
  by destruct (parse_symbols f info).
Qed.


Lemma get_fetcher_supported market fetcher :
  get_fetcher market = Ok fetcher →
  market ∈ choices ∧ ∃ v, fetcher = fetcher_of v.
Proof.
  unfold get_fetcher, fetchers, choices. simpl.
  destruct (String.eqb_spec market "binance") as [->|_];
    [intros [= <-]; split; [set_solver | by exists Spot]|].
  destruct (String.eqb_spec market "binanceperp") as [->|_];
    [intros [= <-]; split; [set_solver | by exists Perp]|].
  destruct (String.eqb_spec market "bybit") as [->|_];
    [intros [= <-]; split; [set_solver | by exists MultiCategory]|].
  discriminate.
Qed.

Lemma choices_are_fetchers : choices = map fst fetchers.
Proof. reflexivity. Qed.


Lemma argparse_accepts market :
  market ∈ choices → existsb (String.eqb market) choices = true.
Proof.
  intros H. apply existsb_exists. exists market.
  split; [by apply list_elem_of_In | apply String.eqb_refl].
Qed.



(** C2, as amended: a run whose pipeline raises ends with exit status 1
    whatever the exception is; a network failure is told from any other
    failure by the line printed on standard error, which starts with
    ["Error fetching data: "] for a network failure and with ["Error: "]
    otherwise. *)
Theorem failure_exit_status py_str market dst w e w' :
  market ∈ choices →
  pipeline py_str market (default_dst market dst) w = (Raise e, w') →
  main py_str market dst w
  = (1, eprint (if is_request_exception e then "Error fetching data: " else "Error: ") e w').
Proof.
  intros Hm Hrun. unfold main. rewrite (argparse_accepts _ Hm), Hrun.
  cbn [negb]. by destruct (is_request_exception e).
Qed.

Lemma failure_exit_status_witness :
  ("bybit" ∈ choices)
  ∧ pipeline no_str "bybit" (default_dst "bybit" None) (world_with [Response 503 JNull])
    = (Raise (RequestException (HTTPError 503)),
       answered (world_with [Response 503 JNull]) []
         [page_request (base_url BybitFetcher) "spot" JNull])
  ∧ main no_str "bybit" None (world_with [Response 503 JNull])
    = (1, eprint "Error fetching data: " (RequestException (HTTPError 503))
            (answered (world_with [Response 503 JNull]) []
               [page_request (base_url BybitFetcher) "spot" JNull])).
Proof.
  assert ("bybit" ∈ choices) as Hm by (unfold choices; set_solver).
  assert (pipeline no_str "bybit" (default_dst "bybit" None) (world_with [Response 503 JNull])
          = (Raise (RequestException (HTTPError 503)),
             answered (world_with [Response 503 JNull]) []
               [page_request (base_url BybitFetcher) "spot" JNull])) as Hrun
    by (vm_compute; reflexivity).
  split; [exact Hm|]. split; [exact Hrun|].
  exact (failure_exit_status no_str "bybit" None _ _ _ Hm Hrun).
Defined.

(** C2, as stated, fails: a run that cannot reach the network and a run
    whose payload lacks a key both end with exit status 1. *)
Lemma network_failure_shares_exit_status :
  pipeline no_str "bybit" (default_dst "bybit" None) (world_with [])
    = (Raise (RequestException ConnectionError),
       answered (world_with []) [] [page_request (base_url BybitFetcher) "spot" JNull])
  ∧ fst (main no_str "bybit" None (world_with [])) = 1
  ∧ fst (pipeline no_str "binance" (default_dst "binance" None)
           (world_with [Response 200 (payload_of Spot [JDict nameless_binance])]))
    = Raise (KeyError "symbol")
  ∧ fst (main no_str "binance" None
           (world_with [Response 200 (payload_of Spot [JDict nameless_binance])])) = 1
  ∧ ¬ exit_status_tells_network_failures no_str.
Proof.
  assert (pipeline no_str "bybit" (default_dst "bybit" None) (world_with [])
          = (Raise (RequestException ConnectionError),
             answered (world_with []) [] [page_request (base_url BybitFetcher) "spot" JNull]))
    as H1 by (vm_compute; reflexivity).
  assert (pipeline no_str "binance" (default_dst "binance" None)
            (world_with [Response 200 (payload_of Spot [JDict nameless_binance])])
          = (Raise (KeyError "symbol"),
             answered (world_with [Response 200 (payload_of Spot [JDict nameless_binance])]) []
               [{| url := "https://api.binance.com/api/v3/exchangeInfo"; params := [] |}]))
    as H2 by (vm_compute; reflexivity).
  split; [exact H1|]. split; [vm_compute; reflexivity|].
  split; [by rewrite H2|]. split; [vm_compute; reflexivity|].
  intros Hall.
  apply (Hall "bybit" None (world_with []) _ _ "binance" None
           (world_with [Response 200 (payload_of Spot [JDict nameless_binance])]) _ _
           H1 eq_refl H2 eq_refl).
  vm_compute. reflexivity.
Qed.

(** ** Nothing is written before parsing has succeeded *)

Lemma eprint_fs prefix e w : fs (eprint prefix e w) = fs w.
Proof. done. Qed.

(** C5: in every run in which fetcher selection, fetching or parsing
    raises, the filesystem at the end of the run is the filesystem at its
    start, so no output file, whole or partial, is written, and the exit
    status is not that of a success. *)
Theorem no_write_before_parse py_str market dst w :
  fails_before_write market w →
  fs (snd (main py_str market dst w)) = fs w
  ∧ fst (main py_str market dst w) ≠ 0.
Proof.
  intros Hfail. unfold main.
  destruct (existsb (String.eqb market) choices); cbn [negb]; [|done].
  rewrite pipeline_stages.
  destruct Hfail as [(e & Hsel) | [(f & e & w1 & Hsel & Hget) | (f & info & w1 & e & Hsel & Hget & Hparse)]].
  - rewrite Hsel. by destruct (is_request_exception e).
  - rewrite Hsel, Hget.
    apply get_fetcher_supported in Hsel as (_ & v & ->).
    destruct (net_only_get_exchange_info v w) as [Hfs _]. rewrite Hget in Hfs.
    by destruct (is_request_exception e).
  - rewrite Hsel, Hget, Hparse.
    apply get_fetcher_supported in Hsel as (_ & v & ->).
    destruct (net_only_get_exchange_info v w) as [Hfs _]. rewrite Hget in Hfs.
    by destruct (is_request_exception e).
Qed.

Lemma no_write_before_parse_witness :
  fails_before_write "binance"
    (world_with [Response 200 (payload_of Spot [JDict nameless_binance])])
  ∧ fs (snd (main no_str "binance" (Some "out/binance.csv")
               (world_with [Response 200 (payload_of Spot [JDict nameless_binance])])))
    = empty_fs
  ∧ fst (main no_str "binance" (Some "out/binance.csv")
           (world_with [Response 200 (payload_of Spot [JDict nameless_binance])])) ≠ 0.
Proof.
  assert (fails_before_write "binance"
            (world_with [Response 200 (payload_of Spot [JDict nameless_binance])])) as H.
  { right. right.
    exists BinanceSpotFetcher, (payload_of Spot [JDict nameless_binance]),
      (answered (world_with [Response 200 (payload_of Spot [JDict nameless_binance])]) []
         [{| url := "https://api.binance.com/api/v3/exchangeInfo"; params := [] |}]),
      (KeyError "symbol").
    repeat split; vm_compute; reflexivity. }
  split; [exact H|].
  exact (no_write_before_parse no_str "binance" (Some "out/binance.csv") _ H).
Defined.

(** ** Paths *)

Lemma length_list_ascii_of_string s :
  length (list_ascii_of_string s) = String.length s.
Proof. induction s as [|c s IH]; simpl; [done|]. by rewrite IH. Qed.

Lemma length_string_of_list_ascii l :
  String.length (string_of_list_ascii l) = length l.
Proof. induction l as [|c l IH]; simpl; [done|]. by rewrite IH. Qed.

Lemma lstrip_length p l : (length (lstrip p l) <= length l)%nat.
Proof.
  induction l as [|c l IH]; simpl; [done|].
  destruct (p c); simpl; lia.
Qed.

(** The directory of a file path is strictly shorter than the path. *)
Lemma dirname_shorter path :
  path ≠ "" → ends_with_slash path = false →
  (String.length (dirname path) < String.length path)%nat.
Proof.
  intros Hne Hend. unfold dirname, ends_with_slash in *.
  rewrite <- (length_list_ascii_of_string path), <- (length_rev (list_ascii_of_string path)).
  destruct (rev (list_ascii_of_string path)) as [|c t] eqn:E.
  - exfalso. apply Hne. rewrite <- (string_of_list_ascii_of_string path).
    apply (f_equal (@rev ascii)) in E. rewrite rev_involutive in E. by rewrite E.
  - cbn [lstrip]. rewrite Hend. cbn [negb].
    pose proof (lstrip_length (fun c => negb (is_slash c)) t) as H1.
    pose proof (lstrip_length is_slash (lstrip (fun c => negb (is_slash c)) t)) as H2.
    destruct (forallb _ _); rewrite length_string_of_list_ascii, length_rev; simpl; lia.
Qed.

Lemma ancestors_from_shorter rest :
  ∀ seen_rev x,
    x ∈ ancestors_from seen_rev rest →
    (String.length x < length seen_rev + length rest)%nat.
Proof.
  induction rest as [|c rest IH]; intros seen_rev x Hx; simpl in Hx.
  - by apply elem_of_nil in Hx.
  - apply elem_of_app in Hx as [Hx|Hx].
    + destruct seen_rev as [|prev seen]; [by apply elem_of_nil in Hx|].
      destruct (is_slash c && negb (is_slash prev)); [|by apply elem_of_nil in Hx].
      apply list_elem_of_singleton in Hx as ->.
      rewrite length_string_of_list_ascii, length_rev. simpl. lia.
    + apply IH in Hx. simpl in Hx |- *. lia.
Qed.

Lemma parent_dirs_shorter path d :
  path ≠ "" → ends_with_slash path = false → d ∈ parent_dirs path →
  (String.length d < String.length path)%nat.
Proof.
  intros Hne Hend Hd. pose proof (dirname_shorter path Hne Hend) as Hlt.
  unfold parent_dirs in Hd. destruct (String.eqb (dirname path) "");
    [by apply elem_of_nil in Hd|].
  apply elem_of_app in Hd as [Hd|Hd].
  - apply ancestors_from_shorter in Hd. rewrite length_list_ascii_of_string in Hd.
    simpl in Hd. lia.
  - by apply list_elem_of_singleton in Hd as ->.
Qed.

(** ** The filesystem *)

Lemma mkdir_all_ok ds :
  ∀ w, (∀ d, d ∈ ds → files (fs w) !! d = None) →
       mkdir_all ds w
       = (Ok tt, with_fs {| dirs := dirs (fs w) ∪ list_to_set ds;
                            files := files (fs w) |} w).
Proof.
  induction ds as [|d ds IH]; intros w Hfree; simpl.
  - unfold ret, with_fs. rewrite (right_id_L ∅ (∪)). by destruct w as [? ? []].
  - unfold bind, mkdir_exist_ok. rewrite (Hfree d); [|apply list_elem_of_here].
    rewrite IH.
    + unfold with_fs. simpl. by rewrite (assoc_L (∪)).
    + intros d' Hd'. simpl. apply Hfree. by apply list_elem_of_further.
Qed.

Lemma open_w_ok path w :
  path ≠ "" → ends_with_slash path = false → path ∉ dirs (fs w) →
  dirname path = "" ∨ dirname path ∈ dirs (fs w) →
  open_w path w
  = (Ok tt, with_fs {| dirs := dirs (fs w); files := <[path := ""]> (files (fs w)) |} w).
Proof.
  intros Hne Hend Hnodir Hparent. unfold open_w.
  apply String.eqb_neq in Hne. rewrite Hne, Hend. cbn [orb].
  rewrite bool_decide_eq_false_2; [|done].
  destruct Hparent as [->|Hin]; [done|].
  rewrite (bool_decide_eq_true_2 _ Hin). cbn [negb]. by rewrite andb_false_r.
Qed.

(** ** The record writer *)


(** The header row does not depend on how values are printed. *)
Lemma csv_header py_str :
  csv_line py_str (map JStr fieldnames)
  = "symbol,base,quote,instrument,priceTick,szTick" ++ CRLF.
Proof. reflexivity. Qed.





(** The same write, evaluated: the missing directory is created and the
    file holds the header and the two rows. Writing to the path of the
    stale file replaces its contents. *)
Example write_csv_sample :
  let w1 := snd (write_csv no_str [btcusdt_row; ethusdt_row] "out/new/symbols.csv"
                   (world_on out_fs)) in
  let w2 := snd (write_csv no_str [btcusdt_row] "out/old.csv" (world_on out_fs)) in
  files (fs w1) !! "out/new/symbols.csv"
  = Some ("symbol,base,quote,instrument,priceTick,szTick" ++ CRLF
          ++ "BTCUSDT,BTC,USDT,spot,0.01,0.00001" ++ CRLF
          ++ "ETHUSDT,ETH,USDT,spot,0.5,2" ++ CRLF)
  ∧ elements (dirs (fs w1)) ≡ₚ ["out"; "out/new"]
  ∧ files (fs w2) !! "out/old.csv"
    = Some ("symbol,base,quote,instrument,priceTick,szTick" ++ CRLF
            ++ "BTCUSDT,BTC,USDT,spot,0.01,0.00001" ++ CRLF).
Proof.
  split; [vm_compute; reflexivity|]. split; [|vm_compute; reflexivity].
  vm_compute. repeat constructor.
Qed.

(** The end-to-end example of the specification: one trading instrument,
    one data row, exit status 0. *)
Example end_to_end :
  let run := main no_str "binance" None
               (world_with [Response 200 (payload_of Spot [JDict btcusdt])]) in
  fst run = 0
  ∧ files (fs (snd run)) !! "artifact/binance.csv"
    = Some ("symbol,base,quote,instrument,priceTick,szTick" ++ CRLF
            ++ "BTCUSDT,BTC,USDT,spot,0.01,0.00001" ++ CRLF)
  ∧ elements (dirs (fs (snd run))) = ["artifact"]
  ∧ stderr (snd run) = [].
Proof. vm_compute. repeat split; reflexivity. Qed.

(** Fields that hold a delimiter or a quote are quoted. *)
Example csv_quoting :
  csv_field "a,b" = String dquote ("a,b" ++ String dquote EmptyString)
  ∧ csv_field (String "a" (String dquote "b"))
    = String dquote (String "a" (String dquote (String dquote ("b" ++ String dquote EmptyString))))
  ∧ csv_field "0.01" = "0.01".
Proof. repeat split; reflexivity. Qed.

(** * Further properties of the code *)

(** ** Parsing a payload piece by piece *)

Lemma for_symbols_app_acc body l1 l2 :
  ∀ acc, for_symbols body (l1 ++ l2) acc
         = (let* a := for_symbols body l1 acc in for_symbols body l2 a)%R.
Proof.
  induction l1 as [|i l1 IH]; intros acc; simpl; [done|].
  destruct (body i) as [[rec|]|e]; simpl; [apply IH | apply IH | done].
Qed.

(** X1: parsing keeps the order of the instruments and distributes over
    concatenation: the records of a payload that lists [l1] and then [l2]
    are the records of [l1] followed by those of [l2], and an error in
    either part is the error of the whole. *)
Theorem parse_symbols_app (v : variant) (l1 l2 : list json) :
  parse_symbols (fetcher_of v) (payload_of v (l1 ++ l2))
  = (let* a := parse_symbols (fetcher_of v) (payload_of v l1) in
     let* b := parse_symbols (fetcher_of v) (payload_of v l2) in
     Ok (a ++ b)%list)%R.
Proof.
  rewrite !parse_payload_of, for_symbols_app_acc.
  destruct (for_symbols (loop_body v) l1 []) as [a|e]; simpl; [|done].
  apply for_symbols_acc.
Qed.

(** X2: the first instrument whose processing raises ends the parse with
    that exception; the records gathered so far are dropped. *)
Theorem parse_symbols_aborts (v : variant) (l1 l2 : list json) (inst : json) (e : exn) :
  Forall (fun i => ∃ o, loop_body v i = Ok o) l1 →
  loop_body v inst = Raise e →
  parse_symbols (fetcher_of v) (payload_of v (l1 ++ inst :: l2)) = Raise e.
Proof.
  intros Hl1 Hinst. rewrite parse_payload_of, for_symbols_app_acc.
  assert (∀ acc, ∃ a, for_symbols (loop_body v) l1 acc = Ok a) as Hok.
  { induction Hl1 as [|i l1 [o Ho] _ IH]; intros acc; simpl; [eauto|].
    rewrite Ho. simpl. apply IH. }
  destruct (Hok []) as [a ->]. simpl. by rewrite Hinst.
Qed.

Lemma parse_symbols_aborts_witness :
  Forall (fun i => ∃ o, loop_body Spot i = Ok o) [JDict btcusdt; JDict btcusdt_break]
  ∧ loop_body Spot (JDict nameless_binance) = Raise (KeyError "symbol")
  ∧ parse_symbols (fetcher_of Spot)
      (payload_of Spot ([JDict btcusdt; JDict btcusdt_break]
                        ++ JDict nameless_binance :: [JDict btcusdt]))
    = Raise (KeyError "symbol").
Proof.
  assert (Forall (fun i => ∃ o, loop_body Spot i = Ok o) [JDict btcusdt; JDict btcusdt_break])
    as H1.
  { repeat constructor; eexists; vm_compute; reflexivity. }
  assert (loop_body Spot (JDict nameless_binance) = Raise (KeyError "symbol")) as H2
    by (vm_compute; reflexivity).
  split; [exact H1|]. split; [exact H2|].
  exact (parse_symbols_aborts Spot _ [JDict btcusdt] _ _ H1 H2).
Defined.

(** X3: a payload without the list of instruments parses to no record at
    all rather than to an error: a Binance payload without [symbols], a
    Bybit payload without [result] or whose [result] has no [list]. A
    payload that is not an object raises [AttributeError]. *)
Theorem parse_symbols_no_list :
  (∀ (v : variant) (d : gmap string json),
     d !! (match v with MultiCategory => "result" | _ => "symbols" end) = None →
     parse_symbols (fetcher_of v) (JDict d) = Ok [])
  ∧ (∀ (d res : gmap string json),
       d !! "result" = Some (JDict res) → res !! "list" = None →
       parse_symbols BybitFetcher (JDict d) = Ok [])
  ∧ (∀ (v : variant) (payload : json),
       (∀ d, payload ≠ JDict d) →
       parse_symbols (fetcher_of v) payload = Raise AttributeError).
Proof.
  split; [|split].
  - intros v d Hd.
    destruct v; simpl; unfold binance_parse_symbols, bybit_parse_symbols; simpl;
      by rewrite Hd.
  - intros d res Hd Hres. simpl. unfold bybit_parse_symbols. simpl.
    rewrite Hd. simpl. by rewrite Hres.
  - intros v payload Hno.
    destruct payload; try (by destruct v); by destruct (Hno d).
Qed.

Lemma parse_symbols_no_list_witness :
  ({[ "code" := JInt (-1121); "msg" := JStr "Invalid symbol." ]} : gmap string json)
    !! "symbols" = None
  ∧ parse_symbols BinanceSpotFetcher
      (JDict {[ "code" := JInt (-1121); "msg" := JStr "Invalid symbol." ]}) = Ok []
  ∧ parse_symbols BybitFetcher (JList []) = Raise AttributeError.
Proof.
  assert (({[ "code" := JInt (-1121); "msg" := JStr "Invalid symbol." ]}
             : gmap string json) !! "symbols" = None) as H by reflexivity.
  split; [exact H|]. split.
  - exact (proj1 parse_symbols_no_list Spot _ H).
  - apply (proj2 (proj2 parse_symbols_no_list) MultiCategory). discriminate.
Defined.

(** ** Which Binance instruments are emitted *)

Lemma getitem_lookup v key x : lookup_key v key = Some x → Py.getitem v key = Ok x.
Proof. destruct v; simpl; try discriminate. by intros ->. Qed.

(** On a list whose entries all carry a type tag the scan cannot raise. *)
Lemma binance_filters_tagged filters :
  tagged_filters filters →
  ∀ p q,
    binance_filters filters p q
    = Ok (default p (last (List.filter (has_filter_type "PRICE_FILTER") filters)),
          default q (last (List.filter (has_filter_type "LOT_SIZE") filters))).
Proof.
  induction 1 as [|f filters [t Ht] _ IH]; intros p q; simpl; [done|].
  rewrite (getitem_lookup _ _ _ Ht). simpl.
  rewrite !(has_filter_type_lookup _ _ _ Ht).
  destruct (Py.eq_str t "PRICE_FILTER") eqn:Hp.
  - apply eq_str_true in Hp as ->. simpl. by rewrite IH, default_last_cons.
  - destruct (Py.eq_str t "LOT_SIZE") eqn:Hq; rewrite IH; [|done].
    by rewrite default_last_cons.
Qed.

Lemma has_filter_type_dict tag f :
  has_filter_type tag f = true → ∃ d, f = JDict d ∧ Py.truthy f = true.
Proof.
  unfold has_filter_type. destruct f; simpl; try discriminate.
  destruct (d !! "filterType") as [x|] eqn:E; [|discriminate]. intros _.
  exists d. split; [done|]. apply negb_true_iff, Nat.eqb_neq.
  intros Hsize. apply map_size_empty_iff in Hsize. subst d.
  by rewrite lookup_empty in E.
Qed.

Lemma last_filter_dict tag filters f :
  last (List.filter (has_filter_type tag) filters) = Some f →
  ∃ d, f = JDict d ∧ Py.truthy f = true.
Proof.
  intros H. apply last_Some_elem_of, list_elem_of_In, filter_In in H as [_ H].
  by apply (has_filter_type_dict tag).
Qed.

(** X4: an active Binance instrument whose filter entries all carry a type
    tag, among them a PRICE_FILTER and a LOT_SIZE, and which has its
    [symbol], [baseAsset] and [quoteAsset] keys, is emitted, with the
    values of the last entry of each type. *)
Theorem binance_symbol_emits kind (d : gmap string json) filters pf qf s b q :
  d !! "status" = Some (JStr "TRADING") →
  d !! "filters" = Some (JList filters) →
  tagged_filters filters →
  last (List.filter (has_filter_type "PRICE_FILTER") filters) = Some pf →
  last (List.filter (has_filter_type "LOT_SIZE") filters) = Some qf →
  d !! "symbol" = Some s → d !! "baseAsset" = Some b → d !! "quoteAsset" = Some q →
  binance_symbol kind (JDict d)
  = Ok (Some {| symbol := s; base := b; quote := q; instrument := JStr kind;
                priceTick := field_or_empty pf "tickSize";
                szTick := field_or_empty qf "stepSize" |}).
Proof.
  intros Hst Hf Htag Hpf Hqf Hs Hb Hq.
  unfold binance_symbol. cbn [Py.get bind_result]. rewrite Hst, Hf.
  cbn [from_option id Py.eq_str Py.iter bind_result].
  rewrite String.eqb_refl. cbn [negb].
  rewrite (binance_filters_tagged _ Htag), Hpf, Hqf.
  cbn [bind_result from_option id fst snd].
  destruct (last_filter_dict _ _ _ Hpf) as (dp & -> & ->).
  destruct (last_filter_dict _ _ _ Hqf) as (dq & -> & ->).
  cbn [andb Py.getitem]. rewrite Hs, Hb, Hq. done.
Qed.

Lemma binance_symbol_emits_witness :
  binance_symbol "spot" (JDict ethusdt_twice)
  = Ok (Some {| symbol := JStr "ETHUSDT"; base := JStr "ETH"; quote := JStr "USDT";
                instrument := JStr "spot";
                priceTick := field_or_empty (binance_filter "PRICE_FILTER" "tickSize" "0.5")
                               "tickSize";
                szTick := field_or_empty (binance_filter "LOT_SIZE" "stepSize" "2")
                            "stepSize" |}).
Proof.
  apply (binance_symbol_emits "spot" ethusdt_twice
           [binance_filter "PRICE_FILTER" "tickSize" "0.01";
            binance_filter "LOT_SIZE" "stepSize" "1";
            binance_filter "PRICE_FILTER" "tickSize" "0.5";
            binance_filter "LOT_SIZE" "stepSize" "2"]); try reflexivity.
  repeat constructor; eexists; reflexivity.
Defined.

(** X5: an active Binance instrument that lacks a PRICE_FILTER or a
    LOT_SIZE entry is skipped without an error, whether or not its other
    keys are present; so is one without a [filters] key. *)
Theorem binance_symbol_skips kind (d : gmap string json) filters :
  d !! "status" = Some (JStr "TRADING") →
  default (JList []) (d !! "filters") = JList filters →
  tagged_filters filters →
  List.filter (has_filter_type "PRICE_FILTER") filters = []
  ∨ List.filter (has_filter_type "LOT_SIZE") filters = [] →
  binance_symbol kind (JDict d) = Ok None.
Proof.
  intros Hst Hf Htag Hmiss.
  unfold binance_symbol. cbn [Py.get bind_result]. rewrite Hst, Hf.
  cbn [from_option id Py.eq_str Py.iter bind_result].
  rewrite String.eqb_refl. cbn [negb].
  rewrite (binance_filters_tagged _ Htag). cbn [bind_result fst snd].
  destruct Hmiss as [-> | ->]; cbn [last from_option id Py.truthy andb]; [done|].
  by rewrite andb_false_r.
Qed.

Lemma binance_symbol_skips_witness :
  binance_symbol "spot" (JDict price_only) = Ok None
  ∧ binance_symbol "perp" (JDict (delete "filters" (delete "symbol" btcusdt))) = Ok None.
Proof.
  split.
  - apply (binance_symbol_skips "spot" price_only
             [binance_filter "PRICE_FILTER" "tickSize" "0.0001"]);
      [reflexivity | reflexivity | | by right].
    repeat constructor; eexists; reflexivity.
  - apply (binance_symbol_skips "perp" (delete "filters" (delete "symbol" btcusdt)) []);
      [reflexivity | reflexivity | constructor | by left].
Defined.

(** ** Fetching: what can go wrong *)



(** One iteration of the pagination loop on a request that fails. *)
Lemma bybit_page_fails base category cursor acc w err :
  next_fails (net_script w) = Some err →
  bybit_page base category cursor acc w
  = (Raise (RequestException err),
     answered w (tail (net_script w)) [page_request base category cursor]).
Proof.
  intros Hfail. unfold bybit_page, bind, requests_get, raise_for_status, lift, ret,
    answered, page_request, next_fails in *.
  destruct (net_script w) as [|[|st b] rest]; cbn [tail fst snd] in *.
  - by injection Hfail as <-.
  - by injection Hfail as <-.
  - destruct ((400 <=? st) && (st <? 600)); [|discriminate]. by injection Hfail as <-.
Qed.

Lemma page_requests_app base category cursor ps1 ps2 :
  page_requests base category cursor (ps1 ++ ps2)
  = (page_requests base category cursor ps1
     ++ page_requests base category (cursor_after cursor ps1) ps2)%list.
Proof.
  revert cursor. induction ps1 as [|p ps1 IH]; intros cursor; simpl; [done|].
  by rewrite IH.
Qed.

(** The pagination loop on a run of pages that all continue, followed by a
    request that fails. *)
Lemma bybit_paginate_fails base category ps :
  ∀ rs l cursor acc w fuel err,
    net_script w = (rs ++ l)%list →
    Forall2 is_page rs ps →
    Forall (fun p => page_continues p = true) ps →
    next_fails l = Some err →
    (length ps <= fuel)%nat →
    bybit_paginate fuel base category cursor acc w
    = (Raise (RequestException err),
       answered w (tail l)
         (page_requests base category cursor ps
          ++ [page_request base category (cursor_after cursor ps)])).
Proof.
  induction ps as [|p ps IH]; intros rs l cursor acc w fuel err Hscript Hpages Hcont Hfail Hfuel.
  - apply Forall2_nil_inv_r in Hpages as ->. simpl in Hscript.
    rewrite bybit_paginate_unfold. unfold bind.
    rewrite (bybit_page_fails _ _ _ _ _ err); rewrite Hscript; done.
  - apply Forall2_cons_inv_r in Hpages as (r & rs' & Hr & Hrest & ->).
    apply Forall_cons in Hcont as [Hp Hcont].
    destruct fuel as [|fuel]; [simpl in Hfuel; lia|].
    rewrite bybit_paginate_unfold. unfold bind.
    rewrite (bybit_page_is_page _ _ _ _ _ r (rs' ++ l) p Hscript Hr), Hp.
    rewrite (IH rs' l _ _ _ _ err); try done; [|simpl in Hfuel; lia].
    by rewrite answered_answered.
Qed.

Lemma bybit_categories_cons base category categories rs rest ps acc w :
  net_script w = (rs ++ rest)%list → Forall2 is_page rs ps → category_run ps →
  bybit_categories base (category :: categories) acc w
  = bybit_categories base categories (acc ++ tagged category ps)
      (answered w rest (page_requests base category JNull ps)).
Proof.
  intros Hscript Hpages Hrun. cbn [bybit_categories]. unfold bind.
  by rewrite (bybit_category_run _ _ rs rest ps).
Qed.

(** X7: a request that fails ends the Bybit fetch at once. After any number
    of complete categories and any number of pages of the next category
    that all continue, a failing request (exhausted script, unreachable
    host or error status) makes the whole fetch raise the network
    exception; nothing of what was fetched is returned, and no further
    request is issued. *)
Theorem bybit_fetch_aborts (runs : list category_pages) category categories
    (rs : list response) (ps : list page) (l : list response) (err : request_error)
    (w : world) :
  (map cat_name runs ++ category :: categories)%list = ["spot"; "linear"; "inverse"] →
  Forall complete_run runs →
  net_script w = (concat (map cat_responses runs) ++ rs ++ l)%list →
  Forall2 is_page rs ps →
  Forall (fun p => page_continues p = true) ps →
  next_fails l = Some err →
  get_exchange_info BybitFetcher w
  = (Raise (RequestException err),
     answered w (tail l)
       (concat (map (fun c => page_requests (base_url BybitFetcher) (cat_name c) JNull
                                (cat_pages c)) runs)
        ++ page_requests (base_url BybitFetcher) category JNull ps
        ++ [page_request (base_url BybitFetcher) category (cursor_after JNull ps)])).
Proof.
  intros Hcats Hruns Hscript Hpages Hcont Hfail.
  cbn [get_exchange_info BybitFetcher base_url]. unfold bybit_get_exchange_info, bind.
  rewrite <- Hcats. clear Hcats.
  assert (∀ acc w0,
            net_script w0 = (concat (map cat_responses runs) ++ rs ++ l)%list →
            bybit_categories "https://api.bybit.com"
              (map cat_name runs ++ category :: categories) acc w0
            = (Raise (RequestException err),
               answered w0 (tail l)
                 (concat (map (fun c => page_requests "https://api.bybit.com" (cat_name c)
                                         JNull (cat_pages c)) runs)
                  ++ page_requests "https://api.bybit.com" category JNull ps
                  ++ [page_request "https://api.bybit.com" category
                        (cursor_after JNull ps)]))) as Hgen.
  { clear Hscript w. induction Hruns as [|c runs [Hc1 Hc2] _ IH]; intros acc w0 Hscript.
    - simpl in Hscript |- *. unfold bind.
      rewrite (bybit_paginate_fails _ _ ps rs l _ _ _ _ err); try done.
      rewrite Hscript, length_app, (Forall2_length _ _ _ Hpages). lia.
    - cbn [map concat app] in Hscript |- *. rewrite <- app_assoc in Hscript.
      rewrite (bybit_categories_cons _ _ _ _ _ _ _ _ Hscript Hc1 Hc2).
      rewrite IH; [|done]. by rewrite answered_answered, <- app_assoc. }
  by rewrite Hgen.
Qed.

Lemma bybit_fetch_aborts_witness :
  get_exchange_info BybitFetcher
    (world_with (map page_response spot_pages
                 ++ [page_response linear_first] ++ [Response 500 JNull; NoConnection]))
  = (Raise (RequestException (HTTPError 500)),
     answered
       (world_with (map page_response spot_pages
                    ++ [page_response linear_first] ++ [Response 500 JNull; NoConnection]))
       (tail [Response 500 JNull; NoConnection])
       (concat (map (fun c => page_requests (base_url BybitFetcher) (cat_name c) JNull
                                (cat_pages c))
                  [ {| cat_name := "spot"; cat_responses := map page_response spot_pages;
                       cat_pages := spot_pages |} ])
        ++ page_requests (base_url BybitFetcher) "linear" JNull [linear_first]
        ++ [page_request (base_url BybitFetcher) "linear"
              (cursor_after JNull [linear_first])])).
Proof.
  apply (bybit_fetch_aborts
           [ {| cat_name := "spot"; cat_responses := map page_response spot_pages;
                cat_pages := spot_pages |} ]
           "linear" ["inverse"] [page_response linear_first] [linear_first]
           [Response 500 JNull; NoConnection] (HTTPError 500)).
  - reflexivity.
  - constructor; [|constructor]. split.
    + repeat constructor; apply is_page_response.
    + exists [ {| page_list := [named "BTCUSDT"; named "ETHUSDT"]; page_cursor := JStr "p2" |} ],
        {| page_list := [named "SOLUSDT"]; page_cursor := JStr "" |}.
      split; [reflexivity|]. split; [repeat constructor | reflexivity].
  - reflexivity.
  - repeat constructor. apply is_page_response.
  - repeat constructor.
  - reflexivity.
Defined.

(** The same run, evaluated: three requests reach the network, the third
    with the token of the first linear page, and the fetch fails. *)
Example bybit_abort_session :
  let run := get_exchange_info BybitFetcher
               (world_with (map page_response spot_pages
                            ++ [page_response linear_first]
                            ++ [Response 500 JNull; NoConnection])) in
  fst run = Raise (RequestException (HTTPError 500))
  ∧ map params (net_log (snd run))
    = [[("category", JStr "spot"); ("limit", JInt 1000)];
       [("category", JStr "spot"); ("limit", JInt 1000); ("cursor", JStr "p2")];
       [("category", JStr "linear"); ("limit", JInt 1000)];
       [("category", JStr "linear"); ("limit", JInt 1000); ("cursor", JStr "n1")]]
  ∧ net_script (snd run) = [NoConnection].
Proof. vm_compute. repeat split; reflexivity. Qed.

(** ** What the Bybit fetcher hands to its parser *)

Lemma tag_symbols_tagged category items :
  ∀ out, tag_symbols category items = Ok out →
         Forall (fun t => ∃ d, t = JDict d ∧ d !! "category" = Some (JStr category)) out.
Proof.
  induction items as [|i items IH]; intros out; simpl.
  - by intros [= <-].
  - intros H. inv_bind H. inv_bind H. injection H as <-.
    constructor; [|by apply IH].
    destruct i; simpl in Hx; try discriminate. injection Hx as <-.
    eexists. split; [done|]. apply lookup_insert_eq.
Qed.

Lemma bybit_page_acc base category cursor acc w step w' :
  bybit_page base category cursor acc w = (Ok step, w') →
  ∃ new,
    Forall (fun t => ∃ d, t = JDict d ∧ d !! "category" = Some (JStr category)) new
    ∧ (step = Break (acc ++ new) ∨ ∃ next, step = Continue next (acc ++ new)).
Proof.
  unfold bybit_page, bind, requests_get, raise_for_status, lift, ret.
  intros H. repeat case_match; simplify_eq;
    match goal with
    | Ht : tag_symbols _ _ = Ok ?out |- _ =>
        exists out; split; [by apply (tag_symbols_tagged _ _ _ Ht) | eauto]
    end.
Qed.

Lemma bybit_paginate_fetched fuel base category :
  category = "spot" ∨ category = "linear" ∨ category = "inverse" →
  ∀ cursor acc w out w',
    Forall fetched_instrument acc →
    bybit_paginate fuel base category cursor acc w = (Ok out, w') →
    Forall fetched_instrument out.
Proof.
  intros Hcat.
  assert (∀ acc new,
            Forall fetched_instrument acc →
            Forall (fun t => ∃ d, t = JDict d ∧ d !! "category" = Some (JStr category)) new →
            Forall fetched_instrument (acc ++ new)) as Hstep.
  { intros acc new Hacc Hnew. apply Forall_app. split; [done|].
    eapply Forall_impl; [exact Hnew|]. intros t (d & -> & Hd). by exists d, category. }
  induction fuel as [|fuel IH]; intros cursor acc w out w' Hacc;
    rewrite bybit_paginate_unfold; unfold bind;
    destruct (bybit_page base category cursor acc w) as [[step|e] w1] eqn:E;
    try discriminate;
    apply bybit_page_acc in E as (new & Hnew & [-> | [next ->]]);
    unfold ret; intros H; try (injection H as <- _; by apply Hstep).
  eapply IH; [|exact H]. by apply Hstep.
Qed.

Lemma bybit_categories_fetched base categories :
  Forall (fun c => c = "spot" ∨ c = "linear" ∨ c = "inverse") categories →
  ∀ acc w out w',
    Forall fetched_instrument acc →
    bybit_categories base categories acc w = (Ok out, w') →
    Forall fetched_instrument out.
Proof.
  induction 1 as [|c categories Hc _ IH]; intros acc w out w' Hacc; simpl.
  - unfold ret. by intros [= <- _].
  - unfold bind.
    destruct (bybit_paginate _ base c JNull acc w) as [[acc'|e] w1] eqn:E; [|discriminate].
    apply IH. by eapply bybit_paginate_fetched.
Qed.

(** X8: whatever the network answers, a payload that the Bybit fetcher
    returns lists only objects tagged with spot, linear or inverse (the tag
    replaces any category the exchange may have sent); so the instrument
    field of every record parsed from a fetched payload is spot, perp or
    inverse, and the pass-through of other categories is never taken. *)
Theorem fetched_payload_categories (w w' : world) (info : json) :
  get_exchange_info BybitFetcher w = (Ok info, w') →
  (∃ insts, info = payload_of MultiCategory insts ∧ Forall fetched_instrument insts)
  ∧ (∀ rows r, parse_symbols BybitFetcher info = Ok rows → r ∈ rows →
       instrument r = JStr "spot" ∨ instrument r = JStr "perp"
       ∨ instrument r = JStr "inverse").
Proof.
  cbn [get_exchange_info BybitFetcher]. unfold bybit_get_exchange_info, bind, ret.
  destruct (bybit_categories _ _ _ w) as [[insts|e] w1] eqn:E; [|discriminate].
  intros [= <- <-].
  assert (Forall (fun c => c = "spot" ∨ c = "linear" ∨ c = "inverse")
            ["spot"; "linear"; "inverse"]) as Hcats by (repeat constructor; auto).
  pose proof (bybit_categories_fetched _ _ Hcats [] w insts w1 (Forall_nil_2 _) E) as Hall.
  split; [by exists insts|].
  intros rows r Hparse Hr.
  destruct (parse_symbols_elem MultiCategory _ _ _ Hparse Hr) as (inst & Hin & Hbody).
  change (instruments_of MultiCategory (JDict {[ "result" := JDict {[ "list" := JList insts ]} ]}))
    with insts in Hin.
  rewrite Forall_forall in Hall. destruct (Hall inst Hin) as (d & c & -> & Hd & Hc).
  simpl in Hbody.
  apply bybit_symbol_some in Hbody as (_ & _ & _ & _ & _ & _ & _ & _ & _ & _ & Hi).
  unfold bybit_category in Hi. simpl in Hi. rewrite Hd in Hi. simpl in Hi.
  destruct Hc as [-> | [-> | ->]]; rewrite Hi; auto.
Qed.

Lemma fetched_payload_categories_witness :
  get_exchange_info BybitFetcher
    (world_with [page_response {| page_list := [<["category" := JStr "option"]> bybit_option];
                                 page_cursor := JNull |};
                 page_response {| page_list := []; page_cursor := JNull |};
                 page_response {| page_list := []; page_cursor := JNull |}])
  = (Ok (payload_of MultiCategory [JDict (<["category" := JStr "spot"]> bybit_option)]),
     answered
       (world_with [page_response {| page_list := [<["category" := JStr "option"]> bybit_option];
                                    page_cursor := JNull |};
                    page_response {| page_list := []; page_cursor := JNull |};
                    page_response {| page_list := []; page_cursor := JNull |}]) []
       [page_request (base_url BybitFetcher) "spot" JNull;
        page_request (base_url BybitFetcher) "linear" JNull;
        page_request (base_url BybitFetcher) "inverse" JNull])
  ∧ ∀ rows r,
      parse_symbols BybitFetcher
        (payload_of MultiCategory [JDict (<["category" := JStr "spot"]> bybit_option)])
      = Ok rows → r ∈ rows →
      instrument r = JStr "spot" ∨ instrument r = JStr "perp"
      ∨ instrument r = JStr "inverse".
Proof.
  assert (get_exchange_info BybitFetcher
            (world_with [page_response {| page_list := [<["category" := JStr "option"]> bybit_option];
                                         page_cursor := JNull |};
                         page_response {| page_list := []; page_cursor := JNull |};
                         page_response {| page_list := []; page_cursor := JNull |}])
          = (Ok (payload_of MultiCategory [JDict (<["category" := JStr "spot"]> bybit_option)]),
             answered
               (world_with [page_response {| page_list := [<["category" := JStr "option"]> bybit_option];
                                            page_cursor := JNull |};
                            page_response {| page_list := []; page_cursor := JNull |};
                            page_response {| page_list := []; page_cursor := JNull |}]) []
               [page_request (base_url BybitFetcher) "spot" JNull;
                page_request (base_url BybitFetcher) "linear" JNull;
                page_request (base_url BybitFetcher) "inverse" JNull])) as H
    by (vm_compute; reflexivity).
  split; [exact H|].
  exact (proj2 (fetched_payload_categories _ _ _ H)).
Defined.

(** X9: a Bybit response with a success status whose [result] is not an
    object makes the fetch raise [AttributeError] after its first request;
    the program reports it with the prefix of the other failures, not with
    that of a network failure, and exits with status 1. *)
Theorem bybit_malformed_result py_str dst (w : world) st (d : gmap string json)
    (r : json) rest :
  net_script w = Response st (JDict d) :: rest →
  (400 <=? st) && (st <? 600) = false →
  d !! "result" = Some r → (∀ x, r ≠ JDict x) →
  get_exchange_info BybitFetcher w
  = (Raise AttributeError,
     answered w rest [page_request (base_url BybitFetcher) "spot" JNull])
  ∧ main py_str "bybit" dst w
    = (1, eprint "Error: " AttributeError
            (answered w rest [page_request (base_url BybitFetcher) "spot" JNull])).
Proof.
  intros Hscript Hst Hd Hr.
  assert (get_exchange_info BybitFetcher w
          = (Raise AttributeError,
             answered w rest [page_request (base_url BybitFetcher) "spot" JNull])) as Hget.
  { cbn [get_exchange_info BybitFetcher base_url].
    unfold bybit_get_exchange_info. cbn [bybit_categories]. unfold bind at 1 2.
    rewrite bybit_paginate_unfold. unfold bind, bybit_page, bind, requests_get,
      raise_for_status, lift, ret, answered, page_request.
    rewrite Hscript. cbn [tail fst snd]. rewrite Hst. cbn [Py.get]. rewrite Hd.
    cbn [from_option id]. destruct r; try done. by destruct (Hr d0). }
  split; [exact Hget|].
  unfold main. cbn [existsb choices negb String.eqb orb].
  rewrite pipeline_stages.
  change (get_fetcher "bybit") with (Ok BybitFetcher). cbv beta iota. by rewrite Hget.
Qed.

Lemma bybit_malformed_result_witness :
  get_exchange_info BybitFetcher
    (world_with [Response 200 (JDict {[ "retCode" := JInt 10001; "result" := JNull ]})])
  = (Raise AttributeError,
     answered (world_with [Response 200 (JDict {[ "retCode" := JInt 10001; "result" := JNull ]})])
       [] [page_request (base_url BybitFetcher) "spot" JNull])
  ∧ main no_str "bybit" None
      (world_with [Response 200 (JDict {[ "retCode" := JInt 10001; "result" := JNull ]})])
    = (1, eprint "Error: " AttributeError
            (answered
               (world_with [Response 200 (JDict {[ "retCode" := JInt 10001; "result" := JNull ]})])
               [] [page_request (base_url BybitFetcher) "spot" JNull])).
Proof.
  apply (bybit_malformed_result no_str None _ 200
           {[ "retCode" := JInt 10001; "result" := JNull ]} JNull []);
    [reflexivity | reflexivity | reflexivity | discriminate].
Defined.

(** ** The orchestrator: selection, success, exit statuses *)

(** X10: the names the argument parser accepts are exactly the names for
    which fetcher selection succeeds, so behind the parser the selection
    cannot fail. *)
Theorem choices_match_fetchers (market : string) :
  market ∈ choices ↔ ∃ fetcher, get_fetcher market = Ok fetcher.
Proof.
  split.
  - intros H. destruct (get_fetcher market) as [f|e] eqn:E; [eauto|].
    exfalso. unfold choices in H.
    repeat (apply elem_of_cons in H as [->|H]; [discriminate E|]).
    by apply elem_of_nil in H.
  - intros [f Hf]. by apply get_fetcher_supported in Hf as [? _].
Qed.

Lemma choices_match_fetchers_witness :
  ("binanceperp" ∈ choices)
  ∧ ∃ fetcher, get_fetcher "binanceperp" = Ok fetcher.
Proof.
  assert ("binanceperp" ∈ choices) as H by (unfold choices; set_solver).
  split; [exact H|].
  exact (proj1 (choices_match_fetchers "binanceperp") H).
Defined.

(** ** The writer touches the filesystem only *)

Lemma with_fs_with_fs f g w : with_fs f (with_fs g w) = with_fs f w.
Proof. done. Qed.










(** The first step of the writer: the directories of the path. *)
Lemma write_csv_unfold py_str symbols path w :
  write_csv py_str symbols path w
  = match mkdir_all (parent_dirs path) w with
    | (Raise e, w1) => (Raise e, w1)
    | (Ok _, w1) =>
        match open_w path w1 with
        | (Raise e, w2) => (Raise e, w2)
        | (Ok _, w2) =>
            (Ok tt,
             with_fs {| dirs := dirs (fs w2);
                        files := <[path := default "" (files (fs w2) !! path)
                                           ++ csv_file py_str symbols]> (files (fs w2)) |} w2)
        end
    end.
Proof.
  unfold write_csv, bind, parent_dirs, makedirs.
  destruct (String.eqb (dirname path) ""); cbn [negb mkdir_all ret].
  - destruct (open_w path w) as [[[]|e] w2]; [|done].
    unfold file_write, ret, with_fs. cbn [fs files dirs net_script net_log stderr].
    rewrite lookup_insert_eq. cbn [from_option id]. rewrite insert_insert_eq.
    unfold csv_file. by rewrite string_app_assoc.
  - destruct (mkdir_all _ w) as [[[]|e] w1]; [|done].
    destruct (open_w path w1) as [[[]|e] w2]; [|done].
    unfold file_write, ret, with_fs. cbn [fs files dirs net_script net_log stderr].
    rewrite lookup_insert_eq. cbn [from_option id]. rewrite insert_insert_eq.
    unfold csv_file. by rewrite string_app_assoc.
Qed.


(** What a successful write leaves behind. *)
Lemma write_csv_run py_str symbols path w :
  writable (fs w) path →
  write_csv py_str symbols path w
  = (Ok tt, with_fs {| dirs := dirs (fs w) ∪ list_to_set (parent_dirs path);
                       files := <[path := csv_file py_str symbols]> (files (fs w)) |} w).
Proof.
  intros (Hne & Hend & Hnodir & Hfree).
  rewrite write_csv_unfold, mkdir_all_ok; [|done].
  rewrite open_w_ok; try done.
  - unfold with_fs. cbn [fs files dirs net_script net_log stderr].
    rewrite lookup_insert_eq. cbn [from_option id]. by rewrite insert_insert_eq.
  - cbn [fs with_fs dirs]. intros Hin. apply elem_of_union in Hin as [Hin|Hin]; [done|].
    apply elem_of_list_to_set in Hin.
    apply parent_dirs_shorter in Hin; [lia|done..].
  - cbn [fs with_fs dirs]. unfold parent_dirs.
    destruct (String.eqb_spec (dirname path) "") as [E|E]; [by left|right].
    apply elem_of_union_r, elem_of_list_to_set, elem_of_app. right.
    apply list_elem_of_here.
Qed.

(** ** The writer: failures, overwriting, composition *)





(** X13: each write replaces the file as a whole. Writing a second table
    to the path of a first leaves exactly what writing the second table
    alone leaves; nothing of the first survives. *)
Theorem write_csv_overwrites py_str symbols1 symbols2 path (w : world) :
  writable (fs w) path →
  write_csv py_str symbols2 path (snd (write_csv py_str symbols1 path w))
  = write_csv py_str symbols2 path w.
Proof.
  intros Hw. pose proof Hw as (Hne & Hend & Hnodir & Hfree).
  rewrite (write_csv_run _ symbols1 _ _ Hw), (write_csv_run _ symbols2 _ _ Hw).
  cbn [snd]. rewrite write_csv_run.
  - unfold with_fs. cbn [fs files dirs net_script net_log stderr].
    rewrite insert_insert_eq. rewrite <- (assoc_L (∪)), (idemp_L (∪)). done.
  - unfold writable. cbn [fs with_fs dirs files].
    split; [done|]. split; [done|]. split.
    + intros Hin. apply elem_of_union in Hin as [Hin|Hin]; [done|].
      apply elem_of_list_to_set in Hin.
      apply parent_dirs_shorter in Hin; [lia|done..].
    + intros d Hd. rewrite lookup_insert_ne; [by apply Hfree|].
      intros <-. apply parent_dirs_shorter in Hd; [lia|done..].
Qed.

Lemma write_csv_overwrites_witness :
  writable (fs (world_on out_fs)) "out/old.csv"
  ∧ write_csv no_str [ethusdt_row] "out/old.csv"
      (snd (write_csv no_str [btcusdt_row; ethusdt_row] "out/old.csv" (world_on out_fs)))
    = write_csv no_str [ethusdt_row] "out/old.csv" (world_on out_fs).
Proof.
  assert (writable (fs (world_on out_fs)) "out/old.csv") as H.
  { split; [discriminate|]. split; [reflexivity|]. split.
    - simpl. apply not_elem_of_singleton. discriminate.
    - intros d Hd. change (parent_dirs "out/old.csv") with ["out"] in Hd.
      apply list_elem_of_singleton in Hd as ->. reflexivity. }
  split; [exact H|].
  exact (write_csv_overwrites no_str [btcusdt_row; ethusdt_row] [ethusdt_row] _ _ H).
Defined.


(** ** The orchestrator, end to end *)






(** ** Destinations without a directory part *)




